(** * go-gin-todo-app: the in-memory todo store and its gin handlers

    A shallow embedding of [main.go] (and of its paginated variant of
    [GetTodos]) together with the properties of the store: identifier
    assignment, pagination, full-replace update, order-preserving delete
    and the two error kinds. *)

From Stdlib Require Import ZArith Lia Ascii String.
From stdpp Require Import base list strings sorting.

Local Open Scope string_scope.
Local Open Scope list_scope.
Local Open Scope Z_scope.

(** ** Go's [int]

    [int] is a 64-bit two's-complement integer on the platforms the
    service is built for.  Values are kept in [Z]; every arithmetic
    operation of the source is followed by the wrap-around of the
    machine. *)

Module GoInt.

Definition int_size : Z := 64.
Definition min_int : Z := - 2 ^ (int_size - 1).
Definition max_int : Z := 2 ^ (int_size - 1) - 1.

Definition in_range (z : Z) : bool := (min_int <=? z) && (z <=? max_int).

Definition wrap (z : Z) : Z :=
  (z + 2 ^ (int_size - 1)) mod 2 ^ int_size - 2 ^ (int_size - 1).

Definition add (a b : Z) : Z := wrap (a + b).
Definition sub (a b : Z) : Z := wrap (a - b).
Definition mul (a b : Z) : Z := wrap (a * b).
(** Go's [/] on integers truncates toward zero. *)
Definition quo (a b : Z) : Z := wrap (Z.quot a b).

End GoInt.

(** ** [strconv.Atoi]

    The standard library's parser, as the handlers see it: an optional
    sign, then one or more decimal digits; the error result (syntax or
    range) is [None]. *)

Module strconv.

Definition digit (ch : ascii) : option Z :=
  let n := Z.of_N (N_of_ascii ch) in
  if (48 <=? n) && (n <=? 57) then Some (n - 48) else None.

Fixpoint digits (s : string) (n : Z) : option Z :=
  match s with
  | EmptyString => Some n
  | String ch rest =>
      match digit ch with
      | Some d => digits rest (n * 10 + d)
      | None => None
      end
  end.

Definition unsigned (s : string) : option Z :=
  match s with
  | EmptyString => None
  | _ => digits s 0
  end.

Definition Atoi (s : string) : option Z :=
  let signed :=
    match s with
    | String "-" rest => (fun n => - n) <$> unsigned rest
    | String "+" rest => unsigned rest
    | _ => unsigned s
    end in
  match signed with
  | Some n => if GoInt.in_range n then Some n else None
  | None => None
  end.

End strconv.

(** ** Data model *)

(** [time.Time], abstracted to an instant counted from the zero value. *)
Definition Time : Type := Z.
Definition zero_time : Time := 0.

Record Todo : Type := mkTodo {
  ID : Z;
  Title : string;
  Description : string;
  Completed : bool;
  CreatedAt : Time;
  UpdatedAt : Time;
}.

(** The zero value of [var newTodo Todo]. *)
Definition zero_Todo : Todo := mkTodo 0 "" "" false zero_time zero_time.

(** The package-level variables [todos] and [nextID]; [ticks] counts the
    calls of [time.Now] made so far.  [todoMu] is held for the whole of
    each handler, so a handler is one atomic step on this state. *)
Record World : Type := mkWorld {
  todos : list Todo;
  nextID : Z;
  ticks : nat;
}.

Definition init : World := mkWorld [] 1 0.

(** [len(todos)].  A Go slice never has more than [max_int] elements. *)
Definition len {A} (l : list A) : Z := Z.of_nat (length l).

(** The slice expression [s[low:high]]: a run-time panic ([None]) unless
    [0 <= low <= high <= len(s)]. *)
Definition slice {A} (s : list A) (low high : Z) : option (list A) :=
  if (0 <=? low) && (low <=? high) && (high <=? len s)
  then Some (take (Z.to_nat (high - low)) (drop (Z.to_nat low) s))
  else None.

(** ** Requests and responses *)

(** A JSON object for a [Todo]: each key is present or not.  A body that
    does not decode into the [Todo] shape is [Malformed] with the
    decoder's message. *)
Record TodoJSON : Type := mkTodoJSON {
  j_id : option Z;
  j_title : option string;
  j_description : option string;
  j_completed : option bool;
  j_created_at : option Time;
  j_updated_at : option Time;
}.

Inductive Body : Type :=
| Malformed (err : string)
| Json (j : TodoJSON).

(** What a handler reads of [*gin.Context]. *)
Record Context : Type := mkContext {
  params : list (string * string);
  query : list (string * string);
  body : Body;
}.

Fixpoint lookup_key (key : string) (kvs : list (string * string)) : string :=
  match kvs with
  | [] => ""
  | (k, v) :: rest => if String.eqb k key then v else lookup_key key rest
  end.

(** [c.Param(key)] and [c.Query(key)]: the value, or [""] when absent. *)
Definition Param (c : Context) (key : string) : string := lookup_key key (params c).
Definition Query (c : Context) (key : string) : string := lookup_key key (query c).

(** [c.ShouldBindJSON(&dst)]: the keys present in the body overwrite the
    fields of [dst], the others keep their value. *)
Definition ShouldBindJSON (c : Context) (dst : Todo) : string + Todo :=
  match body c with
  | Malformed err => inl err
  | Json j =>
      inr {| ID := default (ID dst) (j_id j);
             Title := default (Title dst) (j_title j);
             Description := default (Description dst) (j_description j);
             Completed := default (Completed dst) (j_completed j);
             CreatedAt := default (CreatedAt dst) (j_created_at j);
             UpdatedAt := default (UpdatedAt dst) (j_updated_at j) |}
  end.

(** The [gin.H] of the paginated listing. *)
Record Page : Type := mkPage {
  page_todos : list Todo;
  total_count : Z;
  current_page : Z;
  total_pages : Z;
  per_page : Z;
  has_next : bool;
  has_prev : bool;
}.

Inductive Payload : Type :=
| JTodo (t : Todo)
| JError (msg : string)
| JMessage (msg : string)
| JTodos (ts : list Todo)
| JPage (p : Page).

(** [c.JSON(status, payload)], or a run-time panic in the handler. *)
Inductive Response : Type :=
| JSON (status : Z) (payload : Payload)
| Panic.

Definition StatusOK : Z := 200.
Definition StatusCreated : Z := 201.
Definition StatusBadRequest : Z := 400.
Definition StatusNotFound : Z := 404.

(** ** Handlers as state transformers *)

Definition M (A : Type) : Type := World -> A * World.

#[global] Instance M_ret : MRet M := fun A a w => (a, w).
#[global] Instance M_bind : MBind M :=
  fun A B f m w => let (a, w') := m w in f a w'.

Definition get_todos : M (list Todo) := fun w => (todos w, w).
Definition set_todos (ts : list Todo) : M unit :=
  fun w => (tt, mkWorld ts (nextID w) (ticks w)).
Definition get_nextID : M Z := fun w => (nextID w, w).
Definition set_nextID (n : Z) : M unit :=
  fun w => (tt, mkWorld (todos w) n (ticks w)).

(** [for i, todo := range todos { if todo.ID == id { ... return } }]:
    the index and the copy of the first element whose [ID] is [id];
    [None] when the loop runs to its end. *)
Fixpoint range_find (id : Z) (ts : list Todo) (i : nat) : option (nat * Todo) :=
  match ts with
  | [] => None
  | todo :: rest =>
      if ID todo =? id then Some (i, todo) else range_find id rest (S i)
  end.

Section Handlers.

(** The wall clock: [wall k] is what the [k]-th call of [time.Now]
    returns. *)
Variable wall : nat -> Time.

Definition time_Now : M Time :=
  fun w => (wall (ticks w), mkWorld (todos w) (nextID w) (S (ticks w))).

Definition CreateTodo (c : Context) : M Response :=
  match ShouldBindJSON c zero_Todo with
  | inl err => mret (JSON StatusBadRequest (JError err))
  | inr newTodo =>
      id ← get_nextID;
      set_nextID (GoInt.add id 1);;
      created ← time_Now;
      updated ← time_Now;
      let newTodo :=
        {| ID := id; Title := Title newTodo;
           Description := Description newTodo;
           Completed := Completed newTodo;
           CreatedAt := created; UpdatedAt := updated |} in
      ts ← get_todos;
      set_todos (ts ++ [newTodo]);;
      mret (JSON StatusCreated (JTodo newTodo))
  end.

(** [GetTodos] of [main.go]: the whole collection. *)
Definition GetTodos_all (c : Context) : M Response :=
  ts ← get_todos;
  mret (JSON StatusOK (JTodos ts)).

(** The [page] and [limit] the paginated [GetTodos] works with. *)
Definition page_of (c : Context) : Z :=
  let page := 1 in
  let pageParam := Query c "page" in
  if negb (String.eqb pageParam "") then
    match strconv.Atoi pageParam with
    | Some p => if 0 <? p then p else page
    | None => page
    end
  else page.

Definition limit_of (c : Context) : Z :=
  let limit := 10 in
  let limitParam := Query c "limit" in
  if negb (String.eqb limitParam "") then
    match strconv.Atoi limitParam with
    | Some l => if 0 <? l then (if l <=? 100 then l else 100) else limit
    | None => limit
    end
  else limit.

(** [GetTodos] with pagination. *)
Definition GetTodos (c : Context) : M Response :=
  let page := page_of c in
  let limit := limit_of c in
  ts ← get_todos;
  let totalCount := len ts in
  let totalPages := GoInt.quo (GoInt.sub (GoInt.add totalCount limit) 1) limit in
  let totalPages := if totalPages =? 0 then 1 else totalPages in
  let offset := GoInt.mul (GoInt.sub page 1) limit in
  if totalCount <=? offset then
    mret (JSON StatusOK (JPage
      {| page_todos := []; total_count := totalCount;
         current_page := page; total_pages := totalPages;
         per_page := limit; has_next := false;
         has_prev := 1 <? page |}))
  else
    let end_ := GoInt.add offset limit in
    let end_ := if totalCount <? end_ then totalCount else end_ in
    match slice ts offset end_ with
    | None => mret Panic
    | Some paginatedTodos =>
        mret (JSON StatusOK (JPage
          {| page_todos := paginatedTodos; total_count := totalCount;
             current_page := page; total_pages := totalPages;
             per_page := limit; has_next := page <? totalPages;
             has_prev := 1 <? page |}))
    end.

Definition GetTodo (c : Context) : M Response :=
  match strconv.Atoi (Param c "id") with
  | None => mret (JSON StatusBadRequest (JError "Invalid todo ID"))
  | Some id =>
      ts ← get_todos;
      match range_find id ts 0 with
      | Some (_, todo) => mret (JSON StatusOK (JTodo todo))
      | None => mret (JSON StatusNotFound (JError "Todo not found"))
      end
  end.

Definition UpdateTodo (c : Context) : M Response :=
  match strconv.Atoi (Param c "id") with
  | None => mret (JSON StatusBadRequest (JError "Invalid todo ID"))
  | Some id =>
      match ShouldBindJSON c zero_Todo with
      | inl err => mret (JSON StatusBadRequest (JError err))
      | inr updatedTodo =>
          ts ← get_todos;
          match range_find id ts 0 with
          | Some (i, todo) =>
              now ← time_Now;
              let updatedTodo :=
                {| ID := id; Title := Title updatedTodo;
                   Description := Description updatedTodo;
                   Completed := Completed updatedTodo;
                   CreatedAt := CreatedAt todo; UpdatedAt := now |} in
              set_todos (<[i := updatedTodo]> ts);;
              mret (JSON StatusOK (JTodo updatedTodo))
          | None => mret (JSON StatusNotFound (JError "Todo not found"))
          end
      end
  end.

Definition DeleteTodo (c : Context) : M Response :=
  match strconv.Atoi (Param c "id") with
  | None => mret (JSON StatusBadRequest (JError "Invalid todo ID"))
  | Some id =>
      ts ← get_todos;
      match range_find id ts 0 with
      | Some (i, _) =>
          set_todos (take i ts ++ drop (S i) ts);;
          mret (JSON StatusOK (JMessage "Todo deleted successfully"))
      | None => mret (JSON StatusNotFound (JError "Todo not found"))
      end
  end.

(** The routes of the [/api/v1] group. *)
Inductive Route : Type :=
| POST_todos
| GET_todos
| GET_todo
| PUT_todo
| DELETE_todo.

Definition serve (r : Route) (c : Context) : M Response :=
  match r with
  | POST_todos => CreateTodo c
  | GET_todos => GetTodos c
  | GET_todo => GetTodo c
  | PUT_todo => UpdateTodo c
  | DELETE_todo => DeleteTodo c
  end.

(** A sequence of requests, served one after the other. *)
Fixpoint serve_all (rs : list (Route * Context)) : M (list Response) :=
  match rs with
  | [] => mret []
  | (r, c) :: rest =>
      resp ← serve r c;
      resps ← serve_all rest;
      mret (resp :: resps)
  end.

End Handlers.

Arguments GoInt.wrap : simpl never.
Arguments GoInt.add : simpl never.
Arguments GoInt.sub : simpl never.
Arguments GoInt.mul : simpl never.
Arguments GoInt.quo : simpl never.
Arguments strconv.Atoi : simpl never.
Arguments page_of : simpl never.
Arguments limit_of : simpl never.
Arguments len : simpl never.
Arguments slice : simpl never.

(** ** Specification-side definitions *)

(** The effective [page] and [limit] as the specification words them,
    from the outcome of parsing the query parameter. *)
Definition spec_page (parsed : option Z) : Z :=
  match parsed with
  | Some p => if decide (p > 0) then p else 1
  | None => 1
  end.

Definition spec_limit (parsed : option Z) : Z :=
  match parsed with
  | Some l =>
      if decide (l <= 0) then 10 else if decide (l > 100) then 100 else l
  | None => 10
  end.

(** The ceiling of [a / b], through the floor of the opposite. *)
Definition ceil_div (a b : Z) : Z := - ((- a) / b).

Definition spec_total_pages (totalCount limit : Z) : Z :=
  if decide (totalCount = 0) then 1 else ceil_div totalCount limit.

(** The identifiers handed out by the successful creations among a list
    of responses, in order. *)
Definition created_id (r : Response) : option Z :=
  match r with
  | JSON status (JTodo t) =>
      if status =? StatusCreated then Some (ID t) else None
  | _ => None
  end.

Definition created_ids (rs : list Response) : list Z :=
  omap created_id rs.

(** The identifiers held by the store. *)
Definition ids (w : World) : list Z := ID <$> todos w.

(** The store invariants of the data model: one record per identifier,
    and every identifier in use was handed out by the counter. *)
Definition unique_ids (w : World) : Prop := NoDup (ids w).
Definition counter_ahead (w : World) : Prop :=
  Forall (fun t => 1 <= ID t < nextID w) (todos w).
Definition store_ok (w : World) : Prop :=
  unique_ids w /\ counter_ahead w /\ 1 <= nextID w.

(** The record a draft turns into, given its identifier and timestamps. *)
Definition of_draft (j : TodoJSON) (id : Z) (created updated : Time) : Todo :=
  {| ID := id;
     Title := default "" (j_title j);
     Description := default "" (j_description j);
     Completed := default false (j_completed j);
     CreatedAt := created;
     UpdatedAt := updated |}.


Definition with_body (c : Context) (b : Body) : Context :=
  {| params := params c; query := query c; body := b |}.

(** The identifiers [n], [n + 1], ... of [k] successive creations. *)
Definition counting (n : Z) (k : nat) : list Z :=
  (fun i => n + Z.of_nat i) <$> seq 0 k.

(** The two successive readings of a clock that ticks between them. *)
Definition ticking (k : nat) : Time := 1000 + Z.of_nat k.

(** A small session, for examples. *)
Definition sample_json (title : string) : TodoJSON :=
  mkTodoJSON None (Some title) None None None None.

Definition request (id : string) (b : Body) : Context :=
  mkContext [("id", id)] [] b.

(** A request without a body: decoding it fails. *)
Definition no_body : Body := Malformed "EOF".

Definition posting (title : string) : Context :=
  mkContext [] [] (Json (sample_json title)).

(** Two creations, the deletion of the first record, one more creation. *)
Definition sample_requests : list (Route * Context) :=
  [ (POST_todos, posting "buy milk");
    (POST_todos, posting "call home");
    (DELETE_todo, request "1" no_body);
    (POST_todos, posting "water plants") ].

(** The store after the first two requests. *)
Definition sample_world : World :=
  mkWorld [ mkTodo 1 "buy milk" "" false 1000 1001;
            mkTodo 2 "call home" "" false 1002 1003 ] 3 4.

Definition create_request : Context := posting "water plants".
Definition get_request : Context := request "3" no_body.
Definition update_request : Context :=
  request "2" (Json (sample_json "call home tonight")).
Definition delete_request : Context := request "1" no_body.
Definition list_request : Context :=
  mkContext [] [("page", "2"); ("limit", "1")] no_body.

(** The pages of the twenty-five record example. *)
Definition numbered (n : nat) : list Todo :=
  (fun i => mkTodo (Z.of_nat i) "" "" false 0 0) <$> seq 1 n.

(** ** Definitions for the further properties *)

(** The first record of a collection that carries an identifier. *)
Definition record_with (id : Z) (ts : list Todo) : option Todo :=
  head (filter (fun t => ID t = id) ts).

(** The answer of [GetTodo] for a record looked up this way. *)
Definition answer_of (found : option Todo) : Response :=
  match found with
  | Some t => JSON StatusOK (JTodo t)
  | None => JSON StatusNotFound (JError "Todo not found")
  end.

(** The identifier a request writes to, if any: the counter for a
    creation, the parsed path identifier for an update or a deletion. *)
Definition target (r : Route) (c : Context) (w : World) : option Z :=
  match r with
  | POST_todos => Some (nextID w)
  | PUT_todo | DELETE_todo => strconv.Atoi (Param c "id")
  | GET_todos | GET_todo => None
  end.

(** A response that reports a failure: a status from 400 on, or a
    panic. *)
Definition failed (r : Response) : Prop :=
  match r with
  | JSON status _ => 400 <= status
  | Panic => True
  end.

(** The successful deletions among a list of responses. *)
Definition deleted (r : Response) : bool :=
  match r with
  | JSON status (JMessage _) => status =? StatusOK
  | _ => false
  end.

Definition count_deleted (rs : list Response) : nat :=
  length (filter (fun r => deleted r = true) rs).

(** The records a listing response carries. *)
Definition listed (r : Response) : list Todo :=
  match r with
  | JSON _ (JPage p) => page_todos p
  | _ => []
  end.

(** A clock that never runs backwards. *)
Definition monotone (wall : nat -> Time) : Prop :=
  forall i j : nat, (i <= j)%nat -> wall i <= wall j.

(** Every timestamp of the store is a past reading of the clock, the
    creation reading not after the update reading. *)
Definition stamped (wall : nat -> Time) (w : World) : Prop :=
  Forall (fun t => exists i j : nat,
            (i <= j < ticks w)%nat /\
            CreatedAt t = wall i /\ UpdatedAt t = wall j) (todos w).

(** The identifiers grow along the collection. *)
Definition ascending (w : World) : Prop := StronglySorted Z.lt (ids w).

(** Contexts for the further examples. *)
Definition bad_update_request : Context := request "7" (Malformed "EOF").
Definition zero_request : Context := request "0" no_body.
Definition page_request (page limit : string) : Context :=
  mkContext [] [("page", page); ("limit", limit)] no_body.
Definition page_requests (k : nat) : Context :=
  match k with
  | O => page_request "1" "1"
  | _ => page_request "2" "1"
  end.

(** ** Proof automation *)

(** Runs the state transformers of a handler. *)
Ltac run_M :=
  unfold mbind, M_bind, mret, M_ret, get_todos, set_todos, get_nextID,
    set_nextID, time_Now; simpl.

(** Settles a decidable statement about concrete data. *)
Ltac by_decision := apply (bool_decide_unpack _); vm_compute; exact I.

(** ** Machine integers *)

Lemma wrap_in_range z :
  GoInt.min_int <= z <= GoInt.max_int -> GoInt.wrap z = z.
Proof.
  unfold GoInt.wrap, GoInt.min_int, GoInt.max_int, GoInt.int_size.
  change (2 ^ (64 - 1)) with 9223372036854775808.
  change (2 ^ 64) with 18446744073709551616.
  intros H. rewrite Z.mod_small; lia.
Qed.

Lemma in_range_spec z :
  GoInt.in_range z = true <-> GoInt.min_int <= z <= GoInt.max_int.
Proof. unfold GoInt.in_range. rewrite andb_true_iff, !Z.leb_le. tauto. Qed.

Lemma max_int_value : GoInt.max_int = 9223372036854775807.
Proof. reflexivity. Qed.

Lemma min_int_value : GoInt.min_int = -9223372036854775808.
Proof. reflexivity. Qed.

(** ** The parser *)

Lemma Atoi_in_range s n :
  strconv.Atoi s = Some n -> GoInt.min_int <= n <= GoInt.max_int.
Proof.
  unfold strconv.Atoi.
  destruct (match s with
            | String "-" rest => (fun n => - n) <$> strconv.unsigned rest
            | String "+" rest => strconv.unsigned rest
            | _ => strconv.unsigned s
            end) as [m|]; [|discriminate].
  destruct (GoInt.in_range m) eqn:E; [|discriminate].
  intros [= <-]. by apply in_range_spec.
Qed.

Lemma Atoi_empty : strconv.Atoi "" = None.
Proof. reflexivity. Qed.

(** ** The effective page and limit *)

Lemma page_of_parsed c : page_of c = spec_page (strconv.Atoi (Query c "page")).
Proof.
  unfold page_of, spec_page.
  destruct (String.eqb_spec (Query c "page") "") as [->|_]; simpl.
  - done.
  - destruct (strconv.Atoi _) as [p|]; [|done].
    destruct (Z.ltb_spec 0 p); case_decide; (done || lia).
Qed.

Lemma limit_of_parsed c :
  limit_of c = spec_limit (strconv.Atoi (Query c "limit")).
Proof.
  unfold limit_of, spec_limit.
  destruct (String.eqb_spec (Query c "limit") "") as [->|_]; simpl.
  - done.
  - destruct (strconv.Atoi _) as [l|]; [|done].
    destruct (Z.ltb_spec 0 l), (Z.leb_spec l 100);
      repeat case_decide; (done || lia).
Qed.

Lemma page_of_bounds c : 1 <= page_of c <= GoInt.max_int.
Proof.
  rewrite page_of_parsed. unfold spec_page.
  destruct (strconv.Atoi _) as [p|] eqn:E; [|rewrite max_int_value; lia].
  apply Atoi_in_range in E. case_decide; rewrite max_int_value in *; lia.
Qed.

Lemma limit_of_bounds c : 1 <= limit_of c <= 100.
Proof.
  rewrite limit_of_parsed. unfold spec_limit.
  destruct (strconv.Atoi _) as [l|]; repeat case_decide; lia.
Qed.

(** ** The range loop *)

Lemma range_find_None id ts k :
  range_find id ts k = None <-> id ∉ ID <$> ts.
Proof.
  revert k. induction ts as [|t ts IH]; intros k; cbn [range_find].
  - split; [intros _; apply not_elem_of_nil | done].
  - rewrite fmap_cons, not_elem_of_cons.
    destruct (Z.eqb_spec (ID t) id) as [E|E].
    + split; [done | intros [? _]; congruence].
    + rewrite IH. split; [intros ?; split; [congruence | done] | tauto].
Qed.

Lemma range_find_Some id ts k i t :
  range_find id ts k = Some (i, t) ->
  exists pre post,
    ts = pre ++ t :: post /\ i = (k + length pre)%nat /\
    ID t = id /\ id ∉ ID <$> pre.
Proof.
  revert k. induction ts as [|x ts IH]; intros k; cbn [range_find]; [done|].
  destruct (Z.eqb_spec (ID x) id) as [E|E].
  - intros [= <- <-]. exists [], ts.
    split_and!; [done | simpl; lia | done | apply not_elem_of_nil].
  - intros H. destruct (IH _ H) as (pre & post & -> & -> & Hid & Hpre).
    exists (x :: pre), post.
    split_and!; [done | simpl; lia | done |].
    rewrite fmap_cons, not_elem_of_cons. split; [congruence | done].
Qed.

Lemma range_find_first id pre t post k :
  ID t = id -> id ∉ ID <$> pre ->
  range_find id (pre ++ t :: post) k = Some ((k + length pre)%nat, t).
Proof.
  intros Ht. revert k.
  induction pre as [|x pre IH]; intros k Hpre; cbn [app range_find].
  - rewrite Ht, Z.eqb_refl. do 2 f_equal. simpl. lia.
  - rewrite fmap_cons, not_elem_of_cons in Hpre. destruct Hpre as [Hx Hpre].
    destruct (Z.eqb_spec (ID x) id) as [E|_]; [congruence|].
    rewrite IH by done. do 2 f_equal. simpl. lia.
Qed.

Lemma elem_of_ids_split id ts :
  id ∈ ID <$> ts ->
  exists pre t post, ts = pre ++ t :: post /\ ID t = id /\ id ∉ ID <$> pre.
Proof.
  intros Hin. destruct (range_find id ts 0) as [[i t]|] eqn:E.
  - apply range_find_Some in E as (pre & post & ? & _ & ? & ?). eauto 6.
  - apply range_find_None in E. done.
Qed.

Lemma world_eta w : mkWorld (todos w) (nextID w) (ticks w) = w.
Proof. by destruct w. Qed.

(** ** What each handler does *)

Section Steps.

Variable wall : nat -> Time.

Lemma CreateTodo_bound c j w :
  body c = Json j ->
  let t := of_draft j (nextID w) (wall (ticks w)) (wall (S (ticks w))) in
  CreateTodo wall c w =
    (JSON StatusCreated (JTodo t),
     mkWorld (todos w ++ [t]) (GoInt.add (nextID w) 1) (S (S (ticks w)))).
Proof.
  intros Hb. unfold CreateTodo, ShouldBindJSON. rewrite Hb. by run_M.
Qed.

Lemma CreateTodo_malformed c err w :
  body c = Malformed err ->
  CreateTodo wall c w = (JSON StatusBadRequest (JError err), w).
Proof.
  intros Hb. unfold CreateTodo, ShouldBindJSON. rewrite Hb. by run_M.
Qed.

Lemma GetTodo_found c id pre t post w :
  strconv.Atoi (Param c "id") = Some id ->
  todos w = pre ++ t :: post -> ID t = id -> id ∉ ID <$> pre ->
  GetTodo c w = (JSON StatusOK (JTodo t), w).
Proof.
  intros Hid Hts Ht Hpre. unfold GetTodo. rewrite Hid. run_M.
  by rewrite Hts, range_find_first.
Qed.

Lemma GetTodo_missing c id w :
  strconv.Atoi (Param c "id") = Some id -> id ∉ ids w ->
  GetTodo c w = (JSON StatusNotFound (JError "Todo not found"), w).
Proof.
  intros Hid Hno. unfold GetTodo. rewrite Hid. run_M.
  apply (range_find_None _ _ 0%nat) in Hno. by rewrite Hno.
Qed.

Lemma UpdateTodo_found c id j pre t post w :
  strconv.Atoi (Param c "id") = Some id -> body c = Json j ->
  todos w = pre ++ t :: post -> ID t = id -> id ∉ ID <$> pre ->
  let t' := of_draft j id (CreatedAt t) (wall (ticks w)) in
  UpdateTodo wall c w =
    (JSON StatusOK (JTodo t'),
     mkWorld (pre ++ t' :: post) (nextID w) (S (ticks w))).
Proof.
  intros Hid Hb Hts Ht Hpre. unfold UpdateTodo, ShouldBindJSON.
  rewrite Hid, Hb. run_M. rewrite Hts, range_find_first by done. simpl.
  rewrite insert_app_r_alt, Nat.sub_diag by lia. done.
Qed.

Lemma UpdateTodo_missing c id j w :
  strconv.Atoi (Param c "id") = Some id -> body c = Json j ->
  id ∉ ids w ->
  UpdateTodo wall c w = (JSON StatusNotFound (JError "Todo not found"), w).
Proof.
  intros Hid Hb Hno. unfold UpdateTodo, ShouldBindJSON.
  rewrite Hid, Hb. run_M.
  apply (range_find_None _ _ 0%nat) in Hno. by rewrite Hno.
Qed.

Lemma DeleteTodo_found c id pre t post w :
  strconv.Atoi (Param c "id") = Some id ->
  todos w = pre ++ t :: post -> ID t = id -> id ∉ ID <$> pre ->
  DeleteTodo c w =
    (JSON StatusOK (JMessage "Todo deleted successfully"),
     mkWorld (pre ++ post) (nextID w) (ticks w)).
Proof.
  intros Hid Hts Ht Hpre. unfold DeleteTodo. rewrite Hid. run_M.
  rewrite Hts, range_find_first by done. simpl.
  rewrite take_app_length.
  replace (pre ++ t :: post) with ((pre ++ [t]) ++ post)
    by (by rewrite <- app_assoc).
  rewrite drop_app_length'; [done|]. rewrite length_app. simpl. lia.
Qed.

Lemma DeleteTodo_missing c id w :
  strconv.Atoi (Param c "id") = Some id -> id ∉ ids w ->
  DeleteTodo c w = (JSON StatusNotFound (JError "Todo not found"), w).
Proof.
  intros Hid Hno. unfold DeleteTodo. rewrite Hid. run_M.
  apply (range_find_None _ _ 0%nat) in Hno. by rewrite Hno.
Qed.

End Steps.

(** ** The store invariants along a run *)

Section Invariants.

Variable wall : nat -> Time.

Lemma GetTodos_reads c w :
  (GetTodos c w).2 = w /\ created_id (GetTodos c w).1 = None.
Proof.
  unfold GetTodos. run_M.
  destruct (len (todos w) <=? _); [done|].
  by destruct (slice _ _ _).
Qed.

Lemma store_ok_init : store_ok init.
Proof.
  split_and!; [apply NoDup_nil_2 | apply Forall_nil_2 | done].
Qed.

Lemma store_ok_remove pre t post n k k' :
  store_ok (mkWorld (pre ++ t :: post) n k) ->
  store_ok (mkWorld (pre ++ post) n k').
Proof.
  unfold store_ok, unique_ids, counter_ahead, ids. simpl.
  rewrite !fmap_app, fmap_cons, !Forall_app, Forall_cons.
  intros (Hnd & (Hpre & _ & Hpost) & Hn). split_and!; try done.
  apply NoDup_app in Hnd as (Hd1 & Hd2 & Hd3).
  apply NoDup_cons in Hd3 as [_ Hd3].
  apply NoDup_app. split_and!; [done | | done].
  intros x Hx Hx'. apply (Hd2 x Hx). by right.
Qed.

Lemma store_ok_replace pre t t' post n k k' :
  ID t' = ID t ->
  store_ok (mkWorld (pre ++ t :: post) n k) ->
  store_ok (mkWorld (pre ++ t' :: post) n k').
Proof.
  unfold store_ok, unique_ids, counter_ahead, ids. simpl.
  rewrite !fmap_app, !fmap_cons, !Forall_app, !Forall_cons.
  intros ->. tauto.
Qed.

Lemma store_ok_append ts t n k k' :
  ID t = n -> n < GoInt.max_int ->
  store_ok (mkWorld ts n k) ->
  store_ok (mkWorld (ts ++ [t]) (GoInt.add n 1) k').
Proof.
  unfold store_ok, unique_ids, counter_ahead, ids. simpl.
  intros Ht Hn (Hnd & Hall & H1).
  assert (GoInt.add n 1 = n + 1) as ->.
  { apply wrap_in_range. rewrite min_int_value. lia. }
  rewrite fmap_app, Forall_app, Forall_singleton. simpl.
  split_and!; [| | lia | lia | lia].
  - apply NoDup_app. split_and!; [done | | apply NoDup_singleton].
    intros x Hx Hx'. apply list_elem_of_singleton in Hx'. subst x.
    apply list_elem_of_fmap in Hx as (y & Hy & Hin).
    rewrite Forall_forall in Hall. specialize (Hall y Hin). lia.
  - eapply Forall_impl; [exact Hall|]. simpl. intros; lia.
Qed.

(** One request: the invariants are kept, and the counter moves by one
    exactly when a record is created, whose identifier is the old
    counter. *)
Lemma serve_step r c w :
  store_ok w -> nextID w < GoInt.max_int ->
  store_ok (serve wall r c w).2 /\
  (created_id (serve wall r c w).1 = Some (nextID w) /\
     nextID (serve wall r c w).2 = nextID w + 1 \/
   created_id (serve wall r c w).1 = None /\
     nextID (serve wall r c w).2 = nextID w).
Proof.
  intros Hok Hn. destruct r; simpl.
  - destruct (body c) as [err|j] eqn:Hb.
    + rewrite (CreateTodo_malformed _ _ err) by done. simpl. tauto.
    + rewrite (CreateTodo_bound _ _ j) by done. simpl. split.
      * apply store_ok_append with (k := ticks w); [done | done |].
        by rewrite world_eta.
      * left. split; [done|]. apply wrap_in_range.
        destruct Hok as (_ & _ & ?). rewrite min_int_value. lia.
  - destruct (GetTodos_reads c w) as [-> ->]. tauto.
  - unfold GetTodo. destruct (strconv.Atoi _) as [id|]; [|simpl; tauto].
    run_M. destruct (range_find id (todos w) 0) as [[i t]|]; simpl; tauto.
  - destruct (strconv.Atoi (Param c "id")) as [id|] eqn:Hid;
      [|unfold UpdateTodo; rewrite Hid; simpl; tauto].
    destruct (body c) as [err|j] eqn:Hb;
      [unfold UpdateTodo, ShouldBindJSON; rewrite Hid, Hb; simpl; tauto|].
    destruct (decide (id ∈ ids w)) as [Hin|Hno].
    + apply elem_of_ids_split in Hin as (pre & t & post & Hts & Ht & Hpre).
      rewrite (UpdateTodo_found _ _ id j pre t post) by done. simpl.
      split; [|tauto].
      apply store_ok_replace with (t := t) (k := ticks w); [done|].
      by rewrite <- Hts, world_eta.
    + rewrite (UpdateTodo_missing _ _ id j) by done. simpl. tauto.
  - destruct (strconv.Atoi (Param c "id")) as [id|] eqn:Hid;
      [|unfold DeleteTodo; rewrite Hid; simpl; tauto].
    destruct (decide (id ∈ ids w)) as [Hin|Hno].
    + apply elem_of_ids_split in Hin as (pre & t & post & Hts & Ht & Hpre).
      rewrite (DeleteTodo_found _ id pre t post) by done. simpl.
      split; [|tauto].
      apply store_ok_remove with (t := t) (k := ticks w).
      by rewrite <- Hts, world_eta.
    + rewrite (DeleteTodo_missing _ id) by done. simpl. tauto.
Qed.

Lemma counting_S n k : counting n (S k) = n :: counting (n + 1) k.
Proof.
  unfold counting. cbn [seq fmap list_fmap]. f_equal; [lia|].
  rewrite <- fmap_S_seq, <- list_fmap_compose.
  apply list_fmap_ext. intros _ i _. simpl. lia.
Qed.

Lemma NoDup_counting n k : NoDup (counting n k).
Proof.
  unfold counting. apply NoDup_fmap_2; [|apply NoDup_seq].
  intros i j ?. lia.
Qed.

Lemma serve_all_ids rs w :
  store_ok w -> nextID w + len rs <= GoInt.max_int ->
  created_ids (serve_all wall rs w).1 =
    counting (nextID w) (length (created_ids (serve_all wall rs w).1)) /\
  nextID (serve_all wall rs w).2 =
    nextID w + len (created_ids (serve_all wall rs w).1) /\
  store_ok (serve_all wall rs w).2.
Proof.
  revert w. induction rs as [|[r c] rs IH]; intros w Hok Hn.
  - simpl. split_and!; [done | unfold len; simpl; lia | done].
  - unfold len in Hn. rewrite length_cons in Hn.
    cbn [serve_all]. run_M.
    destruct (serve_step r c w) as [Hok' Hstep]; [done | lia |].
    destruct (serve wall r c w) as [resp w1]. simpl in Hok', Hstep.
    destruct (IH w1) as (Hids & Hnext & Hok''); [done | unfold len; lia |].
    destruct (serve_all wall rs w1) as [resps w2]. simpl in *.
    unfold created_ids in *. cbn [omap list_omap].
    destruct Hstep as [[-> Hw1]|[-> Hw1]].
    + cbn [length]. rewrite counting_S. unfold len in *.
      rewrite length_cons. split_and!; [| lia | done].
      f_equal. rewrite Hw1 in Hids. exact Hids.
    + rewrite Hw1 in Hids, Hnext. done.
Qed.

End Invariants.

(** ** Identifier assignment *)

(** C1: along every sequence of requests served from the empty store
    (creations and deletions in any interleaving, and the other routes as
    well), the identifiers handed out by the successful creations are
    1, 2, 3, ... in this order, each one more than the one before; no
    identifier is handed out twice, so the identifier of a deleted record
    never comes back, and the counter ends at one more than the number of
    creations.  The sequence is shorter than the largest [int], so that
    the counter does not wrap. *)
Theorem create_ids_sequential (wall : nat -> Time) (rs : list (Route * Context)) :
  len rs < GoInt.max_int ->
  let run := serve_all wall rs init in
  created_ids run.1 = counting 1 (length (created_ids run.1)) /\
  NoDup (created_ids run.1) /\
  nextID run.2 = 1 + len (created_ids run.1).
Proof.
  intros Hlen run.
  destruct (serve_all_ids wall rs init) as (Hids & Hnext & _).
  - apply store_ok_init.
  - simpl. lia.
  - fold run in Hids, Hnext. split_and!; [done | | done].
    rewrite Hids. apply NoDup_counting.
Qed.

(** ** Error handling *)

(** C9: when the path identifier does not parse, reading, updating and
    deleting one record all answer 400 with "Invalid todo ID" and leave
    the store as it is; none of them answers 404, whatever the store
    holds. *)
Theorem invalid_id_rejected (wall : nat -> Time) (c : Context) (w : World) :
  strconv.Atoi (Param c "id") = None ->
  let rejected := (JSON StatusBadRequest (JError "Invalid todo ID"), w) in
  GetTodo c w = rejected /\
  UpdateTodo wall c w = rejected /\
  DeleteTodo c w = rejected.
Proof.
  intros Hid. unfold GetTodo, UpdateTodo, DeleteTodo. by rewrite Hid.
Qed.


(** A failed update or delete, whatever the reason, changes nothing. *)
Lemma failed_write_no_effect (wall : nat -> Time) (c : Context) (w : World) :
  ((forall p, (UpdateTodo wall c w).1 <> JSON StatusOK p) ->
   (UpdateTodo wall c w).2 = w) /\
  ((forall p, (DeleteTodo c w).1 <> JSON StatusOK p) ->
   (DeleteTodo c w).2 = w).
Proof.
  split.
  - unfold UpdateTodo. destruct (strconv.Atoi _) as [id|]; [|done].
    destruct (ShouldBindJSON _ _) as [err|u]; [done|]. run_M.
    destruct (range_find id (todos w) 0) as [[i t]|]; [|done].
    simpl. intros H. by edestruct H.
  - unfold DeleteTodo. destruct (strconv.Atoi _) as [id|]; [|done]. run_M.
    destruct (range_find id (todos w) 0) as [[i t]|]; [|done].
    simpl. intros H. by edestruct H.
Qed.

(** ** Creation *)




(** ** Update *)

(** C5: when the store holds a record with the identifier of the
    request, an update with a body that decodes answers 200 with, and
    stores at the position of the first such record, a record with the
    same identifier and the same [created_at], with [updated_at] read
    from the clock and title, description and completion flag taken from
    the body (absent keys give the zero value); the collection keeps its
    length, every other position keeps its record, and the counter does
    not move. *)
Theorem update_replaces_in_place
    (wall : nat -> Time) (c : Context) (id : Z) (j : TodoJSON) (w : World) :
  strconv.Atoi (Param c "id") = Some id ->
  body c = Json j ->
  id ∈ ids w ->
  exists (i : nat) (old new : Todo),
    let w' := (UpdateTodo wall c w).2 in
    (todos w !! i) = Some old /\ ID old = id /\
    (UpdateTodo wall c w).1 = JSON StatusOK (JTodo new) /\
    (todos w' !! i) = Some new /\
    ID new = ID old /\
    CreatedAt new = CreatedAt old /\
    UpdatedAt new = wall (ticks w) /\
    Title new = default "" (j_title j) /\
    Description new = default "" (j_description j) /\
    Completed new = default false (j_completed j) /\
    length (todos w') = length (todos w) /\
    (forall k, k <> i -> (todos w' !! k) = (todos w !! k)) /\
    nextID w' = nextID w.
Proof.
  intros Hid Hb Hin.
  apply elem_of_ids_split in Hin as (pre & old & post & Hts & Hold & Hpre).
  exists (length pre), old, (of_draft j id (CreatedAt old) (wall (ticks w))).
  rewrite (UpdateTodo_found wall c id j pre old post) by done. simpl.
  rewrite Hts. split_and!; try done.
  - by rewrite list_lookup_middle.
  - by rewrite list_lookup_middle.
  - rewrite !length_app. done.
  - intros k Hk. destruct (decide (k < length pre)%nat) as [Hlt|Hge].
    + by rewrite !lookup_app_l.
    + rewrite !lookup_app_r by lia.
      destruct (k - length pre)%nat as [|n] eqn:E; [lia | done].
Qed.

(** ** Delete *)

(** C8: in a store where each identifier is carried by one record, a
    delete of an identifier that is present answers 200 and removes that
    record and nothing else, the records before and after it staying in
    their order; from then on reading and deleting the same identifier
    both answer 404. *)
Theorem delete_removes_record (c : Context) (id : Z) (w : World) :
  strconv.Atoi (Param c "id") = Some id ->
  unique_ids w ->
  id ∈ ids w ->
  exists (pre post : list Todo) (t : Todo),
    let w' := (DeleteTodo c w).2 in
    let not_found := (JSON StatusNotFound (JError "Todo not found"), w') in
    todos w = pre ++ t :: post /\ ID t = id /\
    (DeleteTodo c w).1 = JSON StatusOK (JMessage "Todo deleted successfully") /\
    todos w' = pre ++ post /\
    nextID w' = nextID w /\
    (id ∉ ids w') /\
    GetTodo c w' = not_found /\
    DeleteTodo c w' = not_found.
Proof.
  intros Hid Huniq Hin.
  apply elem_of_ids_split in Hin as (pre & t & post & Hts & Ht & Hpre).
  exists pre, post, t.
  rewrite (DeleteTodo_found c id pre t post) by done. simpl.
  assert (id ∉ ids (mkWorld (pre ++ post) (nextID w) (ticks w))) as Hgone.
  { unfold unique_ids, ids in *. simpl. rewrite Hts in Huniq.
    rewrite fmap_app, fmap_cons, Ht in Huniq.
    apply NoDup_app in Huniq as (_ & Hdisj & Hnd).
    apply NoDup_cons in Hnd as [Hpost _].
    rewrite fmap_app, elem_of_app. tauto. }
  split_and!; try done.
  - by apply GetTodo_missing with (id := id).
  - by apply DeleteTodo_missing with (id := id).
Qed.

(** ** Pagination *)


Lemma ceil_div_bounds a b :
  0 < b -> (ceil_div a b - 1) * b < a <= ceil_div a b * b.
Proof.
  intros Hb. unfold ceil_div.
  pose proof (Z.div_mod (- a) b ltac:(lia)).
  pose proof (Z.mod_pos_bound (- a) b Hb). nia.
Qed.

Lemma ceil_div_unique a b q :
  0 < b -> (q - 1) * b < a <= q * b -> q = ceil_div a b.
Proof.
  intros Hb Hq. pose proof (ceil_div_bounds a b Hb). nia.
Qed.

Lemma len_nonneg {A} (l : list A) : 0 <= len l.
Proof. unfold len. lia. Qed.

(** [totalPages], as the handler computes it. *)
Lemma totalPages_value total limit :
  0 <= total -> total + 100 <= GoInt.max_int -> 1 <= limit <= 100 ->
  (let totalPages := GoInt.quo (GoInt.sub (GoInt.add total limit) 1) limit in
   if totalPages =? 0 then 1 else totalPages) = spec_total_pages total limit.
Proof.
  intros Ht Hfit Hl. rewrite max_int_value in Hfit.
  unfold GoInt.add, GoInt.sub, GoInt.quo.
  rewrite (wrap_in_range (total + limit))
    by (rewrite min_int_value, max_int_value; lia).
  rewrite (wrap_in_range (total + limit - 1))
    by (rewrite min_int_value, max_int_value; lia).
  rewrite Z.quot_div_nonneg by lia.
  pose proof (Z.div_mod (total + limit - 1) limit ltac:(lia)) as Hdm.
  pose proof (Z.mod_pos_bound (total + limit - 1) limit ltac:(lia)) as Hm.
  rewrite wrap_in_range by (rewrite min_int_value, max_int_value; nia).
  cbv zeta. unfold spec_total_pages. case_decide as H0.
  - subst total. replace ((0 + limit - 1) / limit) with 0; [done|].
    symmetry. apply Z.div_small. lia.
  - destruct (Z.eqb_spec ((total + limit - 1) / limit) 0) as [E|_].
    + rewrite E in Hdm. lia.
    + apply ceil_div_unique; [lia | nia].
Qed.

(** The listing inside the range of [int]: when [(page - 1) * limit]
    does not overflow, the handler answers as the pagination policy
    says. *)
Lemma GetTodos_in_range c w :
  len (todos w) + 100 <= GoInt.max_int ->
  (page_of c - 1) * limit_of c <= GoInt.max_int ->
  let page := page_of c in
  let limit := limit_of c in
  let totalCount := len (todos w) in
  let totalPages := spec_total_pages totalCount limit in
  let offset := (page - 1) * limit in
  GetTodos c w =
    (JSON StatusOK (JPage
       (if decide (offset >= totalCount) then
          {| page_todos := []; total_count := totalCount;
             current_page := page; total_pages := totalPages;
             per_page := limit; has_next := false;
             has_prev := bool_decide (page > 1) |}
        else
          {| page_todos :=
               take (Z.to_nat (Z.min (offset + limit) totalCount - offset))
                    (drop (Z.to_nat offset) (todos w));
             total_count := totalCount;
             current_page := page; total_pages := totalPages;
             per_page := limit;
             has_next := bool_decide (page < totalPages);
             has_prev := bool_decide (page > 1) |})), w).
Proof.
  intros Hfit Hoff page limit totalCount totalPages offset.
  pose proof (page_of_bounds c) as Hp. pose proof (limit_of_bounds c) as Hl.
  pose proof (len_nonneg (todos w)) as Hlen.
  fold page in Hp, Hoff. fold limit in Hl, Hoff. fold totalCount in Hlen, Hfit.
  unfold GetTodos. run_M. fold page limit totalCount.
  pose proof (totalPages_value totalCount limit Hlen Hfit Hl) as Htp.
  cbv zeta in Htp. rewrite Htp. fold totalPages.
  rewrite max_int_value in *.
  assert (GoInt.mul (GoInt.sub page 1) limit = offset) as ->.
  { unfold GoInt.mul, GoInt.sub.
    rewrite (wrap_in_range (page - 1))
      by (rewrite min_int_value, max_int_value; lia).
    apply wrap_in_range. rewrite min_int_value, max_int_value.
    subst offset. nia. }
  assert (0 <= offset) by (subst offset; nia).
  assert ((1 <? page) = bool_decide (page > 1)) as ->.
  { destruct (Z.ltb_spec 1 page); case_bool_decide; (done || lia). }
  assert ((page <? totalPages) = bool_decide (page < totalPages)) as ->.
  { destruct (Z.ltb_spec page totalPages); case_bool_decide; (done || lia). }
  destruct (Z.leb_spec totalCount offset) as [Hge|Hlt]; case_decide; try lia.
  - done.
  - assert (GoInt.add offset limit = offset + limit) as ->.
    { apply wrap_in_range. rewrite min_int_value, max_int_value. lia. }
    assert ((if totalCount <? offset + limit then totalCount
             else offset + limit) = Z.min (offset + limit) totalCount) as ->.
    { destruct (Z.ltb_spec totalCount (offset + limit)); lia. }
    unfold slice. fold totalCount.
    destruct (Z.leb_spec 0 offset); [|lia].
    destruct (Z.leb_spec offset (Z.min (offset + limit) totalCount)); [|lia].
    destruct (Z.leb_spec (Z.min (offset + limit) totalCount) totalCount);
      [|lia].
    done.
Qed.

(** The listing answers 200 with a page, unless slicing panics; the page
    carries the effective parameters and the computed totals. *)
Lemma GetTodos_reply c w :
  (GetTodos c w).1 = Panic \/
  exists p,
    (GetTodos c w).1 = JSON StatusOK (JPage p) /\
    current_page p = page_of c /\
    per_page p = limit_of c /\
    total_count p = len (todos w) /\
    total_pages p =
      (let totalPages :=
         GoInt.quo (GoInt.sub (GoInt.add (len (todos w)) (limit_of c)) 1)
                   (limit_of c) in
       if totalPages =? 0 then 1 else totalPages).
Proof.
  unfold GetTodos. run_M.
  destruct (len (todos w) <=? _).
  - right. by eexists.
  - destruct (slice _ _ _); [right; by eexists | by left].
Qed.


(** The defaults at work on the parameters the specification lists. *)
Example query_defaulting_samples :
  let q page limit := mkContext [] [("page", page); ("limit", limit)]
                                (Malformed "EOF") in
  limit_of (q "1" "500") = 100 /\
  limit_of (q "1" "100") = 100 /\
  limit_of (q "1" "0") = 10 /\
  limit_of (q "1" "-5") = 10 /\
  limit_of (q "1" "ten") = 10 /\
  limit_of (mkContext [] [] (Malformed "EOF")) = 10 /\
  page_of (q "0" "10") = 1 /\
  page_of (q "-2" "10") = 1 /\
  page_of (q "2x" "10") = 1 /\
  page_of (q "7" "10") = 7 /\
  page_of (mkContext [] [] (Malformed "EOF")) = 1.
Proof. by vm_compute. Qed.

(** C4: with [limit] the effective limit, the [total_pages] the listing
    reports is the ceiling of [totalCount / limit], that is the least
    number of pages of [limit] records that hold [totalCount] records,
    except for the empty collection, where it is 1.  The listing does
    report it whenever the offset [(page - 1) * limit] is in the range of
    [int]. *)
Theorem total_pages_ceiling (c : Context) (w : World) :
  len (todos w) + 100 <= GoInt.max_int ->
  ((page_of c - 1) * limit_of c <= GoInt.max_int ->
   (GetTodos c w).1 <> Panic) /\
  ((GetTodos c w).1 = Panic \/
   exists p,
     (GetTodos c w).1 = JSON StatusOK (JPage p) /\
     total_count p = len (todos w) /\
     per_page p = limit_of c /\
     total_pages p = spec_total_pages (total_count p) (per_page p) /\
     (total_count p = 0 -> total_pages p = 1) /\
     (total_count p <> 0 ->
        (total_pages p - 1) * per_page p < total_count p
          <= total_pages p * per_page p)).
Proof.
  intros Hfit. split.
  { intros Hoff. by rewrite GetTodos_in_range. }
  destruct (GetTodos_reply c w) as [?|(p & Hr & _ & Hl & Hc & Hp)];
    [by left|].
  right. exists p.
  pose proof (limit_of_bounds c) as Hlim.
  rewrite totalPages_value in Hp by (done || apply len_nonneg).
  rewrite Hc, Hl. split_and!; try done.
  - rewrite Hp. unfold spec_total_pages. intros ->. by case_decide.
  - rewrite Hp. unfold spec_total_pages. intros Hne.
    case_decide; [done|]. apply ceil_div_bounds. lia.
Qed.

(** C2 fails on the code for pages whose offset leaves the range of
    [int].  With one record in the store, [page=1152921504606846977] and
    [limit=16] give the offset [2^64], far beyond the single record; it
    wraps to 0 and the handler answers with the first page instead of an
    empty one.  With [page=9223372036854775807] and the default limit the
    offset wraps to [-20], the comparison with the count fails and the
    slice expression panics. *)
Theorem GetTodos_page_overflow :
  let t := mkTodo 1 "buy milk" "" false 1000 1001 in
  let w := mkWorld [t] 2 2 in
  let wrapped :=
    mkContext [] [("page", "1152921504606846977"); ("limit", "16")]
              (Malformed "EOF") in
  let negative :=
    mkContext [] [("page", "9223372036854775807")] (Malformed "EOF") in
  (page_of wrapped - 1) * limit_of wrapped = 2 ^ 64 /\
  len (todos w) = 1 /\
  GetTodos wrapped w =
    (JSON StatusOK (JPage
       {| page_todos := [t]; total_count := 1;
          current_page := 1152921504606846977; total_pages := 1;
          per_page := 16; has_next := false; has_prev := true |}), w) /\
  (page_of negative - 1) * limit_of negative = 2 ^ 66 + 2 ^ 64 - 20 /\
  GetTodos negative w = (Panic, w).
Proof. by vm_compute. Qed.

(** ** The theorems at work on a small session *)

Example sample_world_reached :
  (serve_all ticking (take 2 sample_requests) init).2 = sample_world.
Proof. by vm_compute. Qed.

Example sample_run :
  created_ids (serve_all ticking sample_requests init).1 = [1; 2; 3].
Proof. by vm_compute. Qed.

Lemma create_ids_sequential_witness :
  len sample_requests < GoInt.max_int /\
  (let run := serve_all ticking sample_requests init in
   created_ids run.1 = counting 1 (length (created_ids run.1)) /\
   NoDup (created_ids run.1) /\
   nextID run.2 = 1 + len (created_ids run.1)).
Proof.
  split; [by vm_compute|].
  apply (create_ids_sequential ticking sample_requests). by vm_compute.
Defined.

Lemma invalid_id_rejected_witness :
  strconv.Atoi (Param (request "abc" no_body) "id") = None /\
  (let rejected :=
     (JSON StatusBadRequest (JError "Invalid todo ID"), sample_world) in
   GetTodo (request "abc" no_body) sample_world = rejected /\
   UpdateTodo ticking (request "abc" no_body) sample_world = rejected /\
   DeleteTodo (request "abc" no_body) sample_world = rejected).
Proof.
  split; [by vm_compute|].
  apply (invalid_id_rejected ticking (request "abc" no_body) sample_world).
  by vm_compute.
Defined.



Lemma update_replaces_in_place_witness :
  strconv.Atoi (Param update_request "id") = Some 2 /\
  body update_request = Json (sample_json "call home tonight") /\
  (2 ∈ ids sample_world) /\
  exists (i : nat) (old new : Todo),
    let w' := (UpdateTodo ticking update_request sample_world).2 in
    (todos sample_world !! i) = Some old /\ ID old = 2 /\
    (UpdateTodo ticking update_request sample_world).1 =
      JSON StatusOK (JTodo new) /\
    (todos w' !! i) = Some new /\
    ID new = ID old /\
    CreatedAt new = CreatedAt old /\
    UpdatedAt new = ticking (ticks sample_world) /\
    Title new = default "" (j_title (sample_json "call home tonight")) /\
    Description new =
      default "" (j_description (sample_json "call home tonight")) /\
    Completed new =
      default false (j_completed (sample_json "call home tonight")) /\
    length (todos w') = length (todos sample_world) /\
    (forall k, k <> i -> (todos w' !! k) = (todos sample_world !! k)) /\
    nextID w' = nextID sample_world.
Proof.
  assert (2 ∈ ids sample_world) as Hin by by_decision.
  split_and!; [by vm_compute | done | exact Hin |].
  apply (update_replaces_in_place ticking update_request 2
           (sample_json "call home tonight") sample_world);
    [by vm_compute | done | exact Hin].
Defined.

Lemma delete_removes_record_witness :
  strconv.Atoi (Param delete_request "id") = Some 1 /\
  unique_ids sample_world /\
  (1 ∈ ids sample_world) /\
  exists (pre post : list Todo) (t : Todo),
    let w' := (DeleteTodo delete_request sample_world).2 in
    let not_found := (JSON StatusNotFound (JError "Todo not found"), w') in
    todos sample_world = pre ++ t :: post /\ ID t = 1 /\
    (DeleteTodo delete_request sample_world).1 =
      JSON StatusOK (JMessage "Todo deleted successfully") /\
    todos w' = pre ++ post /\
    nextID w' = nextID sample_world /\
    (1 ∉ ids w') /\
    GetTodo delete_request w' = not_found /\
    DeleteTodo delete_request w' = not_found.
Proof.
  assert (unique_ids sample_world) as Huniq by by_decision.
  assert (1 ∈ ids sample_world) as Hin by by_decision.
  split_and!; [by vm_compute | exact Huniq | exact Hin |].
  apply (delete_removes_record delete_request 1 sample_world);
    [by vm_compute | exact Huniq | exact Hin].
Defined.

Lemma total_pages_ceiling_witness :
  len (todos sample_world) + 100 <= GoInt.max_int /\
  ((page_of list_request - 1) * limit_of list_request <= GoInt.max_int ->
   (GetTodos list_request sample_world).1 <> Panic) /\
  ((GetTodos list_request sample_world).1 = Panic \/
   exists p,
     (GetTodos list_request sample_world).1 = JSON StatusOK (JPage p) /\
     total_count p = len (todos sample_world) /\
     per_page p = limit_of list_request /\
     total_pages p = spec_total_pages (total_count p) (per_page p) /\
     (total_count p = 0 -> total_pages p = 1) /\
     (total_count p <> 0 ->
        (total_pages p - 1) * per_page p < total_count p
          <= total_pages p * per_page p)).
Proof.
  split; [by vm_compute|].
  apply (total_pages_ceiling list_request sample_world). by vm_compute.
Defined.

Example twenty_five_records :
  let w := mkWorld (numbered 25) 26 50 in
  let q page := mkContext [] [("page", page); ("limit", "10")] no_body in
  let summary (r : Response * World) :=
    match r.1 with
    | JSON 200 (JPage p) =>
        Some (ID <$> page_todos p, total_pages p, has_next p, has_prev p)
    | _ => None
    end in
  summary (GetTodos (q "1") w) =
    Some ([1; 2; 3; 4; 5; 6; 7; 8; 9; 10], 3, true, false) /\
  summary (GetTodos (q "3") w) = Some ([21; 22; 23; 24; 25], 3, false, true) /\
  summary (GetTodos (q "4") w) = Some ([], 3, false, true) /\
  summary (GetTodos (q "1") init) = Some ([], 1, false, false).
Proof. by vm_compute. Qed.

(** ** Further properties of the handlers *)

(** *** Looking a record up *)

Lemma range_find_record id ts k :
  snd <$> range_find id ts k = record_with id ts.
Proof.
  unfold record_with. revert k.
  induction ts as [|t ts IH]; intros k; cbn [range_find]; [done|].
  rewrite filter_cons. destruct (Z.eqb_spec (ID t) id) as [E|E].
  - by rewrite decide_True.
  - rewrite decide_False by done. apply IH.
Qed.

Lemma GetTodo_answer c id w :
  strconv.Atoi (Param c "id") = Some id ->
  GetTodo c w = (answer_of (record_with id (todos w)), w).
Proof.
  intros Hid. unfold GetTodo. rewrite Hid. run_M.
  rewrite <- (range_find_record id (todos w) 0).
  by destruct (range_find id (todos w) 0) as [[i t]|].
Qed.

Lemma record_with_app id l1 l2 :
  record_with id (l1 ++ l2) =
    match record_with id l1 with
    | Some t => Some t
    | None => record_with id l2
    end.
Proof.
  unfold record_with. rewrite filter_app.
  by destruct (filter _ l1).
Qed.

Lemma record_with_cons_ne id t ts :
  ID t <> id -> record_with id (t :: ts) = record_with id ts.
Proof.
  intros Hne. unfold record_with. rewrite filter_cons.
  by rewrite decide_False.
Qed.

Lemma record_with_skip id pre t post :
  ID t <> id -> record_with id (pre ++ t :: post) = record_with id (pre ++ post).
Proof.
  intros Hne. rewrite !record_with_app.
  by rewrite record_with_cons_ne.
Qed.

(** X1: for a path identifier that parses, [GetTodo] never changes the
    world, answers 404 exactly when no record carries the identifier,
    and otherwise answers 200 with the first record that carries it. *)
Theorem GetTodo_first_match (c : Context) (id : Z) (w : World) :
  strconv.Atoi (Param c "id") = Some id ->
  (GetTodo c w).2 = w /\
  ((id ∉ ids w) /\
     (GetTodo c w).1 = JSON StatusNotFound (JError "Todo not found") \/
   exists pre t post,
     todos w = pre ++ t :: post /\ ID t = id /\ (id ∉ ID <$> pre) /\
     (GetTodo c w).1 = JSON StatusOK (JTodo t)).
Proof.
  intros Hid. destruct (decide (id ∈ ids w)) as [Hin|Hno].
  - apply elem_of_ids_split in Hin as (pre & t & post & Hts & Ht & Hpre).
    rewrite (GetTodo_found c id pre t post) by done.
    split; [done|]. right. by exists pre, t, post.
  - rewrite (GetTodo_missing c id) by done. split; [done|]. by left.
Qed.

(** *** Update and what it keeps *)

(** X2: an update followed by a read of the same identifier returns the
    record the update answered with. *)
Theorem update_then_get
    (wall : nat -> Time) (c cget : Context) (id : Z) (j : TodoJSON) (w : World) :
  strconv.Atoi (Param c "id") = Some id ->
  strconv.Atoi (Param cget "id") = Some id ->
  body c = Json j ->
  id ∈ ids w ->
  exists t,
    (UpdateTodo wall c w).1 = JSON StatusOK (JTodo t) /\
    GetTodo cget (UpdateTodo wall c w).2 =
      (JSON StatusOK (JTodo t), (UpdateTodo wall c w).2).
Proof.
  intros Hid Hget Hb Hin.
  apply elem_of_ids_split in Hin as (pre & old & post & Hts & Hold & Hpre).
  rewrite (UpdateTodo_found wall c id j pre old post) by done.
  eexists. split; [done|]. cbn [fst snd].
  by apply GetTodo_found with (id := id) (pre := pre) (post := post).
Qed.

(** X3: whatever the request, [UpdateTodo] leaves the identifiers of the
    collection, their order, the length and the counter as they were. *)
Theorem update_keeps_ids (wall : nat -> Time) (c : Context) (w : World) :
  ids (UpdateTodo wall c w).2 = ids w /\
  length (todos (UpdateTodo wall c w).2) = length (todos w) /\
  nextID (UpdateTodo wall c w).2 = nextID w.
Proof.
  destruct (strconv.Atoi (Param c "id")) as [id|] eqn:Hid;
    [|unfold UpdateTodo; by rewrite Hid].
  destruct (body c) as [err|j] eqn:Hb;
    [unfold UpdateTodo, ShouldBindJSON; by rewrite Hid, Hb|].
  destruct (decide (id ∈ ids w)) as [Hin|Hno].
  - apply elem_of_ids_split in Hin as (pre & t & post & Hts & Ht & Hpre).
    rewrite (UpdateTodo_found wall c id j pre t post) by done.
    unfold ids. cbn [fst snd todos nextID]. rewrite Hts.
    rewrite !fmap_app, !fmap_cons, !length_app. simpl. by rewrite Ht.
  - by rewrite (UpdateTodo_missing wall c id j).
Qed.

(** *** Errors *)


(** X5: on every route, a request that is answered with a status from
    400 on, or that panics, leaves the collection, the counter and the
    clock exactly as they were. *)
Theorem failed_request_changes_nothing
    (wall : nat -> Time) (r : Route) (c : Context) (w : World) :
  failed (serve wall r c w).1 ->
  (serve wall r c w).2 = w.
Proof.
  destruct r; cbn [serve].
  - destruct (body c) as [err|j] eqn:Hb.
    + by rewrite (CreateTodo_malformed wall c err).
    + rewrite (CreateTodo_bound wall c j) by done.
      cbn [fst failed]. unfold StatusCreated. lia.
  - intros _. apply GetTodos_reads.
  - intros _. unfold GetTodo. destruct (strconv.Atoi _) as [id|]; [|done].
    run_M. by destruct (range_find id (todos w) 0) as [[i t]|].
  - unfold UpdateTodo. destruct (strconv.Atoi _) as [id|]; [|done].
    destruct (ShouldBindJSON _ _) as [err|u]; [done|]. run_M.
    destruct (range_find id (todos w) 0) as [[i t]|]; [|done].
    cbn [fst failed]. unfold StatusOK. lia.
  - unfold DeleteTodo. destruct (strconv.Atoi _) as [id|]; [|done]. run_M.
    destruct (range_find id (todos w) 0) as [[i t]|]; [|done].
    cbn [fst failed]. unfold StatusOK. lia.
Qed.

(** X6: in a store whose identifiers all lie between 1 and the counter,
    an identifier that parses but is below 1 or not below the counter is
    answered with 404 by a read, by a delete and by an update with a body
    that decodes, and nothing changes. *)
Theorem unassigned_id_not_found
    (wall : nat -> Time) (c : Context) (id : Z) (j : TodoJSON) (w : World) :
  counter_ahead w ->
  strconv.Atoi (Param c "id") = Some id ->
  id < 1 \/ nextID w <= id ->
  let not_found := (JSON StatusNotFound (JError "Todo not found"), w) in
  GetTodo c w = not_found /\
  DeleteTodo c w = not_found /\
  UpdateTodo wall (with_body c (Json j)) w = not_found.
Proof.
  intros Hahead Hid Hout.
  assert (id ∉ ids w) as Hno.
  { intros Hin. apply list_elem_of_fmap in Hin as (t & -> & Hin).
    unfold counter_ahead in Hahead. rewrite Forall_forall in Hahead.
    specialize (Hahead t Hin). lia. }
  split_and!.
  - by apply GetTodo_missing with (id := id).
  - by apply DeleteTodo_missing with (id := id).
  - by apply UpdateTodo_missing with (id := id) (j := j).
Qed.

(** *** What a request leaves alone *)

Lemma GetTodos_world c w : (GetTodos c w).2 = w.
Proof. apply GetTodos_reads. Qed.

Lemma GetTodo_world c w : (GetTodo c w).2 = w.
Proof.
  unfold GetTodo. destruct (strconv.Atoi _) as [id|]; [|done].
  run_M. by destruct (range_find id (todos w) 0) as [[i t]|].
Qed.

(** The collection after one request, by cases on what the request
    does. *)
Lemma serve_todos (wall : nat -> Time) r c w :
  (serve wall r c w).2 = w \/
  (exists t, r = POST_todos /\ ID t = nextID w /\
     CreatedAt t = wall (ticks w) /\ UpdatedAt t = wall (S (ticks w)) /\
     ticks (serve wall r c w).2 = S (S (ticks w)) /\
     todos (serve wall r c w).2 = todos w ++ [t]) \/
  (exists id pre old new post,
     r = PUT_todo /\ strconv.Atoi (Param c "id") = Some id /\
     todos w = pre ++ old :: post /\ ID old = id /\ ID new = id /\
     CreatedAt new = CreatedAt old /\ UpdatedAt new = wall (ticks w) /\
     ticks (serve wall r c w).2 = S (ticks w) /\
     todos (serve wall r c w).2 = pre ++ new :: post) \/
  (exists id pre old post,
     r = DELETE_todo /\ strconv.Atoi (Param c "id") = Some id /\
     todos w = pre ++ old :: post /\ ID old = id /\
     ticks (serve wall r c w).2 = ticks w /\
     todos (serve wall r c w).2 = pre ++ post).
Proof.
  destruct r; cbn [serve].
  - destruct (body c) as [err|j] eqn:Hb.
    + left. by rewrite (CreateTodo_malformed wall c err).
    + right; left. rewrite (CreateTodo_bound wall c j) by done.
      exists (of_draft j (nextID w) (wall (ticks w)) (wall (S (ticks w)))).
      by split_and!.
  - left. by rewrite GetTodos_world.
  - left. by rewrite GetTodo_world.
  - destruct (strconv.Atoi (Param c "id")) as [id|] eqn:Hid;
      [|left; unfold UpdateTodo; by rewrite Hid].
    destruct (body c) as [err|j] eqn:Hb;
      [left; unfold UpdateTodo, ShouldBindJSON; by rewrite Hid, Hb|].
    destruct (decide (id ∈ ids w)) as [Hin|Hno].
    + apply elem_of_ids_split in Hin as (pre & t & post & Hts & Ht & Hpre).
      right; right; left.
      rewrite (UpdateTodo_found wall c id j pre t post) by done.
      exists id, pre, t, (of_draft j id (CreatedAt t) (wall (ticks w))), post.
      by split_and!.
    + left. by rewrite (UpdateTodo_missing wall c id j).
  - destruct (strconv.Atoi (Param c "id")) as [id|] eqn:Hid;
      [|left; unfold DeleteTodo; by rewrite Hid].
    destruct (decide (id ∈ ids w)) as [Hin|Hno].
    + apply elem_of_ids_split in Hin as (pre & t & post & Hts & Ht & Hpre).
      right; right; right.
      rewrite (DeleteTodo_found c id pre t post) by done.
      exists id, pre, t, post. by split_and!.
    + left. by rewrite (DeleteTodo_missing c id).
Qed.

(** X7: a request changes what a read returns only for the identifier
    it writes to (the counter's for a creation, the path identifier for
    an update or a deletion): the answer of [GetTodo] for any other
    identifier is the same after the request as before. *)
Theorem other_ids_untouched
    (wall : nat -> Time) (r : Route) (c cget : Context) (id' : Z) (w : World) :
  strconv.Atoi (Param cget "id") = Some id' ->
  target r c w <> Some id' ->
  (GetTodo cget (serve wall r c w).2).1 = (GetTodo cget w).1.
Proof.
  intros Hget Htarget.
  rewrite !(GetTodo_answer cget id') by done. cbn [fst]. f_equal.
  destruct (serve_todos wall r c w)
    as [->|[(t & -> & Ht & _ & _ & _ & ->)
          |[(id & pre & old & new & post & -> & Hid & Hts & Ho & Hn & _ & _ & _ & ->)
           |(id & pre & old & post & -> & Hid & Hts & Ho & _ & ->)]]];
    [done| | |].
  - cbn [target] in Htarget. rewrite record_with_app.
    rewrite record_with_cons_ne by congruence.
    by destruct (record_with id' (todos w)).
  - cbn [target] in Htarget. rewrite Hid in Htarget. rewrite Hts.
    rewrite !record_with_app, !record_with_cons_ne by congruence. done.
  - cbn [target] in Htarget. rewrite Hid in Htarget. rewrite Hts.
    by rewrite record_with_skip by congruence.
Qed.

Lemma same_id_same_record (ts : list Todo) (x y : Todo) :
  NoDup (ID <$> ts) -> x ∈ ts -> y ∈ ts -> ID x = ID y -> x = y.
Proof.
  induction ts as [|t ts IH]; [by intros _ ?%elem_of_nil|].
  rewrite fmap_cons, NoDup_cons, !elem_of_cons.
  intros [Hnot Hnd] [->|Hx] [->|Hy] Hxy; [done | | |by apply IH].
  - destruct Hnot. rewrite Hxy. by apply list_elem_of_fmap_2.
  - destruct Hnot. rewrite <- Hxy. by apply list_elem_of_fmap_2.
Qed.

(** X8: [created_at] is set once: in a store that keeps the invariants,
    a record found before a request and a record with the same
    identifier found after it have the same [created_at], whatever the
    request. *)
Theorem created_at_never_changes
    (wall : nat -> Time) (r : Route) (c : Context) (w : World) (t t' : Todo) :
  store_ok w ->
  t ∈ todos w ->
  t' ∈ todos (serve wall r c w).2 ->
  ID t = ID t' ->
  CreatedAt t' = CreatedAt t.
Proof.
  intros (Huniq & Hahead & _) Ht Ht' Hsame.
  unfold unique_ids, ids in Huniq.
  destruct (serve_todos wall r c w)
    as [Heq|[(n & _ & Hn & _ & _ & _ & Heq)
          |[(id & pre & old & new & post & _ & _ & Hts & Ho & Hnw & Hc & _ & _ & Heq)
           |(id & pre & old & post & _ & _ & Hts & _ & _ & Heq)]]];
    rewrite Heq in Ht'.
  - by rewrite (same_id_same_record (todos w) t t').
  - apply elem_of_app in Ht' as [Ht'|Ht'%list_elem_of_singleton].
    + by rewrite (same_id_same_record (todos w) t t').
    + subst t'. unfold counter_ahead in Hahead.
      rewrite Forall_forall in Hahead. specialize (Hahead t Ht). lia.
  - assert (old ∈ todos w) as Hold.
    { rewrite Hts. apply elem_of_app. right. by left. }
    apply elem_of_app in Ht' as [Ht'|[->|Ht']%elem_of_cons].
    + rewrite (same_id_same_record (todos w) t t'); [done..| |done].
      rewrite Hts. apply elem_of_app. by left.
    + rewrite Hc. f_equal.
      apply (same_id_same_record (todos w)); [done..|congruence].
    + rewrite (same_id_same_record (todos w) t t'); [done..| |done].
      rewrite Hts. apply elem_of_app. right. by right.
  - assert (t' ∈ todos w) as Hin.
    { rewrite Hts. apply elem_of_app in Ht' as [?|?];
        apply elem_of_app; [by left | right; by right]. }
    by rewrite (same_id_same_record (todos w) t t').
Qed.

(** *** Invariants along a run *)

Lemma serve_all_cons (wall : nat -> Time) r c rs w :
  serve_all wall ((r, c) :: rs) w =
    ((serve wall r c w).1 :: (serve_all wall rs (serve wall r c w).2).1,
     (serve_all wall rs (serve wall r c w).2).2).
Proof.
  cbn [serve_all]. run_M. destruct (serve wall r c w) as [resp w1].
  cbn [fst snd]. by destruct (serve_all wall rs w1).
Qed.

(** A property kept by every request, as long as the counter has room,
    holds at the end of a run. *)
Lemma serve_all_keeps (wall : nat -> Time) (P : World -> Prop) :
  (forall r c w, store_ok w -> P w -> P (serve wall r c w).2) ->
  forall rs w,
    store_ok w -> nextID w + len rs <= GoInt.max_int -> P w ->
    store_ok (serve_all wall rs w).2 /\ P (serve_all wall rs w).2.
Proof.
  intros Hstep rs. induction rs as [|[r c] rs IH]; intros w Hok Hn HP;
    [done|].
  unfold len in Hn. rewrite length_cons in Hn.
  rewrite serve_all_cons. cbn [snd].
  destruct (serve_step wall r c w) as [Hok' Hnext]; [done | lia |].
  apply IH; [done | unfold len; lia | by apply Hstep].
Qed.

(** X9: served from the empty store, a sequence of requests shorter
    than the largest [int] ends in a store where every identifier is
    carried by one record only, lies between 1 and the counter, and the
    counter is at least 1. *)
Theorem run_keeps_store_ok (wall : nat -> Time) (rs : list (Route * Context)) :
  len rs < GoInt.max_int ->
  store_ok (serve_all wall rs init).2.
Proof.
  intros Hlen.
  apply (serve_all_keeps wall (fun _ => True)); [done | | | done].
  - apply store_ok_init.
  - simpl. lia.
Qed.

Lemma ascending_step (wall : nat -> Time) r c w :
  store_ok w -> ascending w -> ascending (serve wall r c w).2.
Proof.
  intros (_ & Hahead & _) Hasc. unfold ascending, ids in *.
  destruct (serve_todos wall r c w)
    as [->|[(t & _ & Ht & _ & _ & _ & ->)
          |[(id & pre & old & new & post & _ & _ & Hts & Ho & Hn & _ & _ & _ & ->)
           |(id & pre & old & post & _ & _ & Hts & _ & _ & ->)]]];
    [done| | |].
  - rewrite fmap_app. apply StronglySorted_app_2; [|done|].
    + intros x1 x2 Hx1 ->%list_elem_of_singleton.
      apply list_elem_of_fmap in Hx1 as (y & -> & Hy).
      unfold counter_ahead in Hahead. rewrite Forall_forall in Hahead.
      specialize (Hahead y Hy). lia.
    + repeat constructor.
  - rewrite Hts in Hasc. rewrite fmap_app, fmap_cons in *.
    by rewrite Hn, <- Ho.
  - rewrite Hts in Hasc. rewrite fmap_app, fmap_cons in Hasc.
    rewrite fmap_app.
    apply StronglySorted_app in Hasc as (Hlt & Hpre & Hpost).
    apply StronglySorted_cons in Hpost as [_ Hpost].
    apply StronglySorted_app_2; [|done..].
    intros x1 x2 Hx1 Hx2. apply Hlt; [done|]. by right.
Qed.

Lemma StronglySorted_lookup {A} (R : relation A) (l : list A) i j x y :
  StronglySorted R l -> (i < j)%nat ->
  l !! i = Some x -> l !! j = Some y -> R x y.
Proof.
  intros Hs. revert i j. induction Hs as [|a l Hs IH Hall]; intros i j Hij.
  - by rewrite lookup_nil.
  - destruct j as [|j]; [lia|]. destruct i as [|i]; simpl.
    + intros [= ->] Hy. rewrite Forall_forall in Hall.
      apply Hall. by eapply list_elem_of_lookup_2.
    + apply IH. lia.
Qed.

(** X10: served from the empty store, the collection is always in the
    order of its identifiers: of two records, the one listed first has
    the smaller identifier (it was created first). *)
Theorem listing_follows_ids
    (wall : nat -> Time) (rs : list (Route * Context)) (i j : nat) (ti tj : Todo) :
  len rs < GoInt.max_int ->
  (i < j)%nat ->
  todos (serve_all wall rs init).2 !! i = Some ti ->
  todos (serve_all wall rs init).2 !! j = Some tj ->
  ID ti < ID tj.
Proof.
  intros Hlen Hij Hi Hj.
  destruct (serve_all_keeps wall ascending (ascending_step wall) rs init)
    as [_ Hasc].
  - apply store_ok_init.
  - simpl. lia.
  - constructor.
  - apply (StronglySorted_lookup Z.lt _ i j _ _ Hasc Hij).
    + unfold ids. by rewrite list_lookup_fmap, Hi.
    + unfold ids. by rewrite list_lookup_fmap, Hj.
Qed.

Lemma count_deleted_cons r rs :
  count_deleted (r :: rs) =
    ((if deleted r then 1 else 0) + count_deleted rs)%nat.
Proof.
  unfold count_deleted. rewrite filter_cons.
  destruct (deleted r); by case_decide.
Qed.

Lemma serve_size (wall : nat -> Time) r c w :
  (length (todos (serve wall r c w).2)
     + (if deleted (serve wall r c w).1 then 1 else 0) =
   length (todos w)
     + (if created_id (serve wall r c w).1 is Some _ then 1 else 0))%nat.
Proof.
  destruct r; cbn [serve].
  - destruct (body c) as [err|j] eqn:Hb.
    + by rewrite (CreateTodo_malformed wall c err).
    + rewrite (CreateTodo_bound wall c j) by done. simpl.
      rewrite length_app. simpl. lia.
  - unfold GetTodos. run_M. destruct (len (todos w) <=? _); [simpl; lia|].
    destruct (slice _ _ _); simpl; lia.
  - unfold GetTodo. destruct (strconv.Atoi _) as [id|]; [|simpl; lia].
    run_M. destruct (range_find id (todos w) 0) as [[i t]|]; simpl; lia.
  - destruct (strconv.Atoi (Param c "id")) as [id|] eqn:Hid;
      [|unfold UpdateTodo; rewrite Hid; simpl; lia].
    destruct (body c) as [err|j] eqn:Hb;
      [unfold UpdateTodo, ShouldBindJSON; rewrite Hid, Hb; simpl; lia|].
    destruct (decide (id ∈ ids w)) as [Hin|Hno].
    + apply elem_of_ids_split in Hin as (pre & t & post & Hts & Ht & Hpre).
      rewrite (UpdateTodo_found wall c id j pre t post) by done. simpl.
      rewrite Hts, !length_app. simpl. lia.
    + rewrite (UpdateTodo_missing wall c id j) by done. simpl. lia.
  - destruct (strconv.Atoi (Param c "id")) as [id|] eqn:Hid;
      [|unfold DeleteTodo; rewrite Hid; simpl; lia].
    destruct (decide (id ∈ ids w)) as [Hin|Hno].
    + apply elem_of_ids_split in Hin as (pre & t & post & Hts & Ht & Hpre).
      rewrite (DeleteTodo_found c id pre t post) by done. simpl.
      rewrite Hts, !length_app. simpl. lia.
    + rewrite (DeleteTodo_missing c id) by done. simpl. lia.
Qed.

(** X11: from any store and along any sequence of requests, the
    collection grows and shrinks with the successful creations and
    deletions only: its final length plus the number of 200 answers of
    deletions is its first length plus the number of 201 answers. *)
Theorem size_accounting
    (wall : nat -> Time) (rs : list (Route * Context)) (w : World) :
  (length (todos (serve_all wall rs w).2)
     + count_deleted (serve_all wall rs w).1 =
   length (todos w) + length (created_ids (serve_all wall rs w).1))%nat.
Proof.
  revert w. induction rs as [|[r c] rs IH]; intros w.
  { change (count_deleted (serve_all wall [] w).1) with 0%nat. simpl. lia. }
  rewrite serve_all_cons. cbn [fst snd].
  rewrite count_deleted_cons. unfold created_ids. cbn [omap list_omap].
  pose proof (serve_size wall r c w) as Hstep.
  specialize (IH (serve wall r c w).2). unfold created_ids in IH.
  destruct (created_id (serve wall r c w).1); cbn [length]; lia.
Qed.

Lemma stamped_step (wall : nat -> Time) r c w :
  stamped wall w -> stamped wall (serve wall r c w).2.
Proof.
  unfold stamped. intros Hst.
  assert (forall n, (ticks w <= n)%nat ->
            Forall (fun t => exists i j : nat, (i <= j < n)%nat /\
                      CreatedAt t = wall i /\ UpdatedAt t = wall j) (todos w))
    as Hlater.
  { intros n Hn. eapply Forall_impl; [exact Hst|]. simpl.
    intros t (i & j & ? & ? & ?). exists i, j. split; [lia | done]. }
  destruct (serve_todos wall r c w)
    as [->|[(t & _ & _ & Hc & Hu & -> & ->)
          |[(id & pre & old & new & post & _ & _ & Hts & _ & _ & Hc & Hu & -> & ->)
           |(id & pre & old & post & _ & _ & Hts & _ & -> & ->)]]];
    [done| | |].
  - apply Forall_app. split; [apply Hlater; lia|].
    apply Forall_singleton. exists (ticks w), (S (ticks w)).
    split; [lia | done].
  - specialize (Hlater (S (ticks w)) ltac:(lia)). rewrite Hts in Hlater.
    apply Forall_app in Hlater as [Hpre Hrest].
    apply Forall_cons in Hrest as [(i & j & Hij & Hi & _) Hpost].
    apply Forall_app. split; [done|]. apply Forall_cons. split; [|done].
    exists i, (ticks w). split; [lia|]. split; [congruence | done].
  - rewrite Hts in Hst. apply Forall_app in Hst as [Hpre Hrest].
    apply Forall_cons in Hrest as [_ Hpost].
    apply Forall_app. by split.
Qed.

(** X12: on a clock that never runs backwards, every record of a store
    served from the empty one has [created_at] not after
    [updated_at]. *)
Theorem timestamps_ordered
    (wall : nat -> Time) (rs : list (Route * Context)) (t : Todo) :
  monotone wall ->
  t ∈ todos (serve_all wall rs init).2 ->
  CreatedAt t <= UpdatedAt t.
Proof.
  intros Hmono Hin.
  assert (forall rs w, stamped wall w -> stamped wall (serve_all wall rs w).2)
    as Hrun.
  { clear. intros rs. induction rs as [|[r c] rs IH]; intros w Hw; [done|].
    rewrite serve_all_cons. cbn [snd]. apply IH. by apply stamped_step. }
  specialize (Hrun rs init (Forall_nil_2 _)).
  unfold stamped in Hrun. rewrite Forall_forall in Hrun.
  destruct (Hrun t Hin) as (i & j & Hij & -> & ->).
  apply Hmono. lia.
Qed.

(** *** Further properties of the listing *)

Lemma wrap_le z : GoInt.min_int <= z -> GoInt.wrap z <= z.
Proof.
  rewrite min_int_value. unfold GoInt.wrap, GoInt.int_size.
  change (2 ^ (64 - 1)) with 9223372036854775808.
  change (2 ^ 64) with 18446744073709551616.
  intros Hz.
  pose proof (Z.mod_le (z + 9223372036854775808) 18446744073709551616
                ltac:(lia) ltac:(lia)).
  lia.
Qed.

Lemma len_zero_nil {A} (l : list A) : len l = 0 -> l = [].
Proof. unfold len. intros H. apply nil_length_inv. lia. Qed.

(** X13: whatever the query and the store, a page that the listing
    answers with holds at most [per_page] records, [per_page] lies
    between 1 and 100, and the records are a run of consecutive records
    of the collection, in the collection's order. *)
Theorem page_is_bounded_segment (c : Context) (w : World) :
  (GetTodos c w).1 = Panic \/
  exists p,
    (GetTodos c w).1 = JSON StatusOK (JPage p) /\
    1 <= per_page p <= 100 /\
    len (page_todos p) <= per_page p /\
    exists pre post, todos w = pre ++ page_todos p ++ post.
Proof.
  pose proof (limit_of_bounds c) as Hl.
  unfold GetTodos. run_M.
  destruct (len (todos w) <=? _).
  - right. eexists. split; [done|]. cbn [per_page page_todos].
    split_and!; [lia | lia | unfold len; simpl; lia |].
    exists (todos w), []. by rewrite app_nil_r.
  - set (offset := GoInt.mul (GoInt.sub (page_of c) 1) (limit_of c)).
    set (e := GoInt.add offset (limit_of c)).
    set (end_ := if len (todos w) <? e then len (todos w) else e).
    unfold slice.
    destruct (Z.leb_spec 0 offset) as [H0|]; [|by left].
    destruct (Z.leb_spec offset end_) as [H1|]; [|by left].
    destruct (Z.leb_spec end_ (len (todos w))) as [H2|]; [|by left].
    right. eexists. split; [done|]. cbn [per_page page_todos].
    assert (end_ <= offset + limit_of c) as He.
    { assert (e <= offset + limit_of c)
        by (apply wrap_le; rewrite min_int_value; lia).
      subst end_. destruct (Z.ltb_spec (len (todos w)) e); lia. }
    split_and!; [lia | lia | |].
    + unfold len. rewrite length_take. lia.
    + exists (take (Z.to_nat offset) (todos w)),
        (drop (Z.to_nat (end_ - offset)) (drop (Z.to_nat offset) (todos w))).
      by rewrite !take_drop.
Qed.

(** X14: when the offset [(page - 1) * limit] is in the range of [int],
    the listing answers 200 with the effective parameters and the count;
    beyond the data the page is empty and [has_next] is false, otherwise
    the page is the [limit] records from the offset on (fewer at the end
    of the collection) and [has_next] says whether [page] is below
    [total_pages]; [has_prev] says whether [page] is above 1. *)
Theorem listing_within_range (c : Context) (w : World) :
  len (todos w) + 100 <= GoInt.max_int ->
  (page_of c - 1) * limit_of c <= GoInt.max_int ->
  let offset := (page_of c - 1) * limit_of c in
  exists p,
    GetTodos c w = (JSON StatusOK (JPage p), w) /\
    total_count p = len (todos w) /\
    current_page p = page_of c /\
    per_page p = limit_of c /\
    has_prev p = bool_decide (page_of c > 1) /\
    (offset >= len (todos w) -> page_todos p = [] /\ has_next p = false) /\
    (offset < len (todos w) ->
       page_todos p =
         take (Z.to_nat (limit_of c)) (drop (Z.to_nat offset) (todos w)) /\
       has_next p = bool_decide (page_of c < total_pages p)).
Proof.
  intros Hfit Hoff offset.
  pose proof (page_of_bounds c) as Hp. pose proof (limit_of_bounds c) as Hl.
  rewrite GetTodos_in_range by done. fold offset.
  assert (0 <= offset) by (subst offset; nia).
  case_decide as Hcase; eexists; (split; [done|]);
    cbn [total_count current_page per_page has_prev page_todos has_next
         total_pages];
    split_and!; try done; try (intros; lia).
  intros Hlt. split; [|done].
  destruct (Z.le_ge_cases (offset + limit_of c) (len (todos w))) as [Hle|Hge].
  - by rewrite Z.min_l, Z.add_simpl_l by done.
  - rewrite Z.min_r by done.
    rewrite !take_ge; [done | |]; rewrite length_drop; unfold len in *; lia.
Qed.

(** X15: when the offset is in the range of [int], [has_next] is true
    exactly when records remain after this page, that is when
    [page * limit] is below the count, and [has_prev] exactly when
    [page] is above 1. *)
Theorem has_next_means_more (c : Context) (w : World) :
  len (todos w) + 100 <= GoInt.max_int ->
  (page_of c - 1) * limit_of c <= GoInt.max_int ->
  exists p,
    (GetTodos c w).1 = JSON StatusOK (JPage p) /\
    (has_next p = true <-> page_of c * limit_of c < len (todos w)) /\
    (has_prev p = true <-> 1 < page_of c).
Proof.
  intros Hfit Hoff.
  pose proof (page_of_bounds c) as Hp. pose proof (limit_of_bounds c) as Hl.
  pose proof (len_nonneg (todos w)) as Hlen.
  rewrite GetTodos_in_range by done.
  case_decide as Hcase; eexists; (split; [done|]);
    cbn [has_next has_prev]; rewrite !bool_decide_eq_true.
  - split; [|lia]. split; [done | nia].
  - split; [|lia]. unfold spec_total_pages.
    case_decide as H0; [lia|].
    pose proof (ceil_div_bounds (len (todos w)) (limit_of c) ltac:(lia)).
    split; intros; nia.
Qed.

(** X16: with [page=1] and a limit that is not below the count, the
    paginated listing returns the whole collection on one page, the very
    records the unpaginated [GetTodos] of [main.go] returns, with one
    page in total and neither a next nor a previous page. *)
Theorem single_page_is_whole_listing (c : Context) (w : World) :
  page_of c = 1 ->
  len (todos w) <= limit_of c ->
  GetTodos c w =
    (JSON StatusOK (JPage
       {| page_todos := todos w; total_count := len (todos w);
          current_page := 1; total_pages := 1; per_page := limit_of c;
          has_next := false; has_prev := false |}), w) /\
  GetTodos_all c w = (JSON StatusOK (JTodos (todos w)), w).
Proof.
  intros Hpage Hle. split; [|done].
  pose proof (limit_of_bounds c) as Hl.
  pose proof (len_nonneg (todos w)) as Hlen.
  rewrite GetTodos_in_range
    by (rewrite ?Hpage, max_int_value; lia).
  rewrite Hpage. change ((1 - 1) * limit_of c) with 0.
  assert (bool_decide (1 > 1) = false) as -> by done.
  case_decide as Hcase.
  - assert (len (todos w) = 0) as H0 by lia.
    rewrite (len_zero_nil _ H0). unfold spec_total_pages.
    by rewrite decide_True.
  - assert (spec_total_pages (len (todos w)) (limit_of c) = 1) as ->.
    { unfold spec_total_pages. rewrite decide_False by lia.
      symmetry. apply ceil_div_unique; lia. }
    assert (bool_decide (1 < 1) = false) as -> by done.
    rewrite Z.add_0_l, Z.min_r, Z.sub_0_r by done.
    change (Z.to_nat 0) with 0%nat. rewrite drop_0, take_ge; [done|].
    unfold len. lia.
Qed.

Lemma chunks_concat {A} (L : nat) (n : nat) (l : list A) :
  (length l <= n * L)%nat ->
  concat ((fun k => take L (drop (k * L) l)) <$> seq 0 n) = l.
Proof.
  revert l. induction n as [|n IH]; intros l Hlen.
  - symmetry. apply nil_length_inv. lia.
  - cbn [seq fmap list_fmap concat]. rewrite drop_0.
    rewrite <- fmap_S_seq, <- list_fmap_compose.
    rewrite (list_fmap_ext _ (fun k => take L (drop (k * L) (drop L l)))).
    + rewrite IH; [apply take_drop|]. rewrite length_drop. lia.
    + intros _ k _. simpl. by rewrite drop_drop.
Qed.

(** X17: the pages partition the collection: for a limit [L], the pages
    1 to [total_pages], one after the other, give the whole collection,
    each record once and in order. *)
Theorem pages_cover_collection (cs : nat -> Context) (L : Z) (w : World) :
  len (todos w) + 100 <= GoInt.max_int ->
  0 < L ->
  (forall k : nat,
     (k < Z.to_nat (spec_total_pages (len (todos w)) L))%nat ->
     page_of (cs k) = Z.of_nat (S k) /\ limit_of (cs k) = L) ->
  concat ((fun k => listed (GetTodos (cs k) w).1)
            <$> seq 0 (Z.to_nat (spec_total_pages (len (todos w)) L)))
    = todos w.
Proof.
  intros Hfit HL Hcs.
  pose proof (len_nonneg (todos w)) as Hlen.
  destruct (decide (len (todos w) = 0)) as [H0|H0].
  - unfold spec_total_pages. rewrite decide_True by done.
    change (Z.to_nat 1) with 1%nat. cbn [seq fmap list_fmap concat].
    rewrite app_nil_r. unfold GetTodos. run_M.
    rewrite (len_zero_nil _ H0).
    destruct (len [] <=? _); [done|]. unfold slice.
    destruct (_ && _); [|done]. cbn [fst listed page_todos].
    by rewrite drop_nil, take_nil.
  - unfold spec_total_pages in *. rewrite decide_False in * by done.
    pose proof (ceil_div_bounds (len (todos w)) L HL) as Hceil.
    set (tp := ceil_div (len (todos w)) L) in *.
    assert (1 <= tp) as Htp by nia.
    assert (L <= 100) as HL100.
    { destruct (Hcs 0%nat) as [_ <-]; [lia|]. apply limit_of_bounds. }
    rewrite (list_fmap_ext _
      (fun k => take (Z.to_nat L) (drop (k * Z.to_nat L) (todos w)))).
    + apply chunks_concat.
      assert (Z.of_nat (Z.to_nat tp * Z.to_nat L) = tp * L)
        by (rewrite Nat2Z.inj_mul, !Z2Nat.id; lia).
      unfold len in *. lia.
    + intros k ? [-> Hk]%lookup_seq. cbn [Nat.add].
      destruct (Hcs k Hk) as [Hp Hlim].
      assert (Z.of_nat k * L < len (todos w)) as Hoff by nia.
      rewrite GetTodos_in_range
        by (rewrite ?Hp, ?Hlim, ?max_int_value in *; lia || nia).
      rewrite Hp, Hlim.
      replace ((Z.of_nat (S k) - 1) * L) with (Z.of_nat k * L) by lia.
      rewrite decide_False by lia. cbn [fst listed page_todos].
      replace (Z.to_nat (Z.of_nat k * L)) with (k * Z.to_nat L)%nat
        by (rewrite Z2Nat.inj_mul, Nat2Z.id; lia).
      destruct (Z.le_ge_cases (Z.of_nat k * L + L) (len (todos w)))
        as [Hle|Hge].
      * by rewrite Z.min_l, Z.add_simpl_l by done.
      * rewrite Z.min_r by done.
        assert (Z.of_nat (k * Z.to_nat L) = Z.of_nat k * L)
          by (rewrite Nat2Z.inj_mul, Z2Nat.id; lia).
        rewrite !take_ge; [done | |]; rewrite length_drop;
          unfold len in *; lia.
Qed.

(** *** Creating and deleting *)

(** X18: in a store whose identifiers are all below the counter,
    creating a record and then deleting the identifier it was given
    leaves the collection as it was before the two requests; the counter
    has moved on, so the identifier is spent. *)
Theorem create_then_delete
    (wall : nat -> Time) (c cdel : Context) (j : TodoJSON) (w : World) :
  body c = Json j ->
  counter_ahead w ->
  strconv.Atoi (Param cdel "id") = Some (nextID w) ->
  let w1 := (CreateTodo wall c w).2 in
  (DeleteTodo cdel w1).1 =
    JSON StatusOK (JMessage "Todo deleted successfully") /\
  todos (DeleteTodo cdel w1).2 = todos w /\
  nextID (DeleteTodo cdel w1).2 = GoInt.add (nextID w) 1.
Proof.
  intros Hb Hahead Hid w1. subst w1.
  rewrite (CreateTodo_bound wall c j) by done. cbn [snd].
  rewrite (DeleteTodo_found cdel (nextID w) (todos w)
             (of_draft j (nextID w) (wall (ticks w)) (wall (S (ticks w))))
             []); [|done|done|done|].
  - cbn [fst snd todos nextID]. by rewrite app_nil_r.
  - intros Hin. apply list_elem_of_fmap in Hin as (y & Hy & Hin).
    unfold counter_ahead in Hahead. rewrite Forall_forall in Hahead.
    specialize (Hahead y Hin). lia.
Qed.

(** *** The further properties on the small session *)

Lemma sample_world_ok : store_ok sample_world.
Proof.
  split_and!; [by_decision | | done].
  unfold counter_ahead, sample_world. simpl.
  repeat first [apply Forall_cons_2 | apply Forall_nil_2]; simpl; lia.
Qed.

Lemma ticking_monotone : monotone ticking.
Proof. intros i j Hij. unfold ticking. lia. Qed.

Lemma GetTodo_first_match_witness :
  strconv.Atoi (Param get_request "id") = Some 3 /\
  ((GetTodo get_request sample_world).2 = sample_world /\
   ((3 ∉ ids sample_world) /\
      (GetTodo get_request sample_world).1 =
        JSON StatusNotFound (JError "Todo not found") \/
    exists pre t post,
      todos sample_world = pre ++ t :: post /\ ID t = 3 /\
      (3 ∉ ID <$> pre) /\
      (GetTodo get_request sample_world).1 = JSON StatusOK (JTodo t))).
Proof.
  split; [by vm_compute|].
  apply (GetTodo_first_match get_request 3 sample_world). by vm_compute.
Defined.

Lemma update_then_get_witness :
  strconv.Atoi (Param update_request "id") = Some 2 /\
  strconv.Atoi (Param (request "2" no_body) "id") = Some 2 /\
  body update_request = Json (sample_json "call home tonight") /\
  (2 ∈ ids sample_world) /\
  exists t,
    (UpdateTodo ticking update_request sample_world).1 =
      JSON StatusOK (JTodo t) /\
    GetTodo (request "2" no_body)
        (UpdateTodo ticking update_request sample_world).2 =
      (JSON StatusOK (JTodo t),
       (UpdateTodo ticking update_request sample_world).2).
Proof.
  assert (2 ∈ ids sample_world) as Hin by by_decision.
  split_and!; [by vm_compute | by vm_compute | done | exact Hin |].
  apply (update_then_get ticking update_request (request "2" no_body) 2
           (sample_json "call home tonight") sample_world);
    [by vm_compute | by vm_compute | done | exact Hin].
Defined.


Lemma failed_request_changes_nothing_witness :
  failed (serve ticking DELETE_todo bad_update_request sample_world).1 /\
  (serve ticking DELETE_todo bad_update_request sample_world).2 =
    sample_world.
Proof.
  assert (failed (serve ticking DELETE_todo bad_update_request
                    sample_world).1) as Hfailed.
  { vm_compute. discriminate. }
  split; [exact Hfailed|].
  exact (failed_request_changes_nothing ticking DELETE_todo
           bad_update_request sample_world Hfailed).
Defined.

Lemma unassigned_id_not_found_witness :
  counter_ahead sample_world /\
  strconv.Atoi (Param zero_request "id") = Some 0 /\
  (0 < 1 \/ nextID sample_world <= 0) /\
  (let not_found :=
     (JSON StatusNotFound (JError "Todo not found"), sample_world) in
   GetTodo zero_request sample_world = not_found /\
   DeleteTodo zero_request sample_world = not_found /\
   UpdateTodo ticking (with_body zero_request (Json (sample_json "tidy up")))
     sample_world = not_found).
Proof.
  pose proof sample_world_ok as (_ & Hahead & _).
  split_and!; [exact Hahead | by vm_compute | left; lia |].
  apply (unassigned_id_not_found ticking zero_request 0
           (sample_json "tidy up") sample_world);
    [exact Hahead | by vm_compute | left; lia].
Defined.

Lemma other_ids_untouched_witness :
  strconv.Atoi (Param (request "2" no_body) "id") = Some 2 /\
  target DELETE_todo delete_request sample_world <> Some 2 /\
  (GetTodo (request "2" no_body)
     (serve ticking DELETE_todo delete_request sample_world).2).1 =
    (GetTodo (request "2" no_body) sample_world).1.
Proof.
  assert (target DELETE_todo delete_request sample_world <> Some 2) as Hne
    by (vm_compute; discriminate).
  split_and!; [by vm_compute | exact Hne |].
  apply (other_ids_untouched ticking DELETE_todo delete_request
           (request "2" no_body) 2 sample_world); [by vm_compute | exact Hne].
Defined.

Lemma created_at_never_changes_witness :
  store_ok sample_world /\
  (mkTodo 2 "call home" "" false 1002 1003 ∈ todos sample_world) /\
  (mkTodo 2 "call home tonight" "" false 1002 1004
     ∈ todos (serve ticking PUT_todo update_request sample_world).2) /\
  ID (mkTodo 2 "call home" "" false 1002 1003) =
    ID (mkTodo 2 "call home tonight" "" false 1002 1004) /\
  CreatedAt (mkTodo 2 "call home tonight" "" false 1002 1004) =
    CreatedAt (mkTodo 2 "call home" "" false 1002 1003).
Proof.
  assert (mkTodo 2 "call home" "" false 1002 1003 ∈ todos sample_world)
    as Hin by (right; left).
  assert (mkTodo 2 "call home tonight" "" false 1002 1004
            ∈ todos (serve ticking PUT_todo update_request sample_world).2)
    as Hin' by (right; left).
  split_and!; [apply sample_world_ok | exact Hin | exact Hin' | done |].
  exact (created_at_never_changes ticking PUT_todo update_request
           sample_world _ _ sample_world_ok Hin Hin' eq_refl).
Defined.

Lemma run_keeps_store_ok_witness :
  len sample_requests < GoInt.max_int /\
  store_ok (serve_all ticking sample_requests init).2.
Proof.
  split; [by vm_compute|].
  apply (run_keeps_store_ok ticking sample_requests). by vm_compute.
Defined.

Lemma listing_follows_ids_witness :
  len sample_requests < GoInt.max_int /\
  (0 < 1)%nat /\
  todos (serve_all ticking sample_requests init).2 !! 0%nat =
    Some (mkTodo 2 "call home" "" false 1002 1003) /\
  todos (serve_all ticking sample_requests init).2 !! 1%nat =
    Some (mkTodo 3 "water plants" "" false 1004 1005) /\
  ID (mkTodo 2 "call home" "" false 1002 1003) <
    ID (mkTodo 3 "water plants" "" false 1004 1005).
Proof.
  split_and!; [by vm_compute | lia | done | done |].
  apply (listing_follows_ids ticking sample_requests 0 1);
    [by vm_compute | lia | done | done].
Defined.

Lemma timestamps_ordered_witness :
  monotone ticking /\
  (mkTodo 3 "water plants" "" false 1004 1005
     ∈ todos (serve_all ticking sample_requests init).2) /\
  CreatedAt (mkTodo 3 "water plants" "" false 1004 1005) <=
    UpdatedAt (mkTodo 3 "water plants" "" false 1004 1005).
Proof.
  assert (mkTodo 3 "water plants" "" false 1004 1005
            ∈ todos (serve_all ticking sample_requests init).2)
    as Hin by (right; left).
  split_and!; [apply ticking_monotone | exact Hin |].
  exact (timestamps_ordered ticking sample_requests _ ticking_monotone Hin).
Defined.

Lemma listing_within_range_witness :
  len (todos sample_world) + 100 <= GoInt.max_int /\
  (page_of list_request - 1) * limit_of list_request <= GoInt.max_int /\
  (let offset := (page_of list_request - 1) * limit_of list_request in
   exists p,
     GetTodos list_request sample_world =
       (JSON StatusOK (JPage p), sample_world) /\
     total_count p = len (todos sample_world) /\
     current_page p = page_of list_request /\
     per_page p = limit_of list_request /\
     has_prev p = bool_decide (page_of list_request > 1) /\
     (offset >= len (todos sample_world) ->
        page_todos p = [] /\ has_next p = false) /\
     (offset < len (todos sample_world) ->
        page_todos p =
          take (Z.to_nat (limit_of list_request))
               (drop (Z.to_nat offset) (todos sample_world)) /\
        has_next p = bool_decide (page_of list_request < total_pages p))).
Proof.
  split_and!; [by vm_compute | by vm_compute |].
  apply (listing_within_range list_request sample_world); by vm_compute.
Defined.

Lemma has_next_means_more_witness :
  len (todos sample_world) + 100 <= GoInt.max_int /\
  (page_of list_request - 1) * limit_of list_request <= GoInt.max_int /\
  exists p,
    (GetTodos list_request sample_world).1 = JSON StatusOK (JPage p) /\
    (has_next p = true <->
       page_of list_request * limit_of list_request
         < len (todos sample_world)) /\
    (has_prev p = true <-> 1 < page_of list_request).
Proof.
  split_and!; [by vm_compute | by vm_compute |].
  apply (has_next_means_more list_request sample_world); by vm_compute.
Defined.

Lemma single_page_is_whole_listing_witness :
  page_of (page_request "1" "10") = 1 /\
  len (todos sample_world) <= limit_of (page_request "1" "10") /\
  GetTodos (page_request "1" "10") sample_world =
    (JSON StatusOK (JPage
       {| page_todos := todos sample_world;
          total_count := len (todos sample_world);
          current_page := 1; total_pages := 1;
          per_page := limit_of (page_request "1" "10");
          has_next := false; has_prev := false |}), sample_world) /\
  GetTodos_all (page_request "1" "10") sample_world =
    (JSON StatusOK (JTodos (todos sample_world)), sample_world).
Proof.
  split_and!; [by vm_compute | by vm_compute | |];
    apply (single_page_is_whole_listing (page_request "1" "10")
             sample_world); by vm_compute.
Defined.

Lemma pages_cover_collection_witness :
  len (todos sample_world) + 100 <= GoInt.max_int /\
  0 < 1 /\
  (forall k : nat,
     (k < Z.to_nat (spec_total_pages (len (todos sample_world)) 1))%nat ->
     page_of (page_requests k) = Z.of_nat (S k) /\
     limit_of (page_requests k) = 1) /\
  concat ((fun k => listed (GetTodos (page_requests k) sample_world).1)
            <$> seq 0 (Z.to_nat
                         (spec_total_pages (len (todos sample_world)) 1)))
    = todos sample_world.
Proof.
  assert (forall k : nat,
            (k < Z.to_nat (spec_total_pages (len (todos sample_world)) 1))%nat ->
            page_of (page_requests k) = Z.of_nat (S k) /\
            limit_of (page_requests k) = 1) as Hcs.
  { change (Z.to_nat (spec_total_pages (len (todos sample_world)) 1))
      with 2%nat.
    intros [|[|k]] Hk; [by vm_compute | by vm_compute | lia]. }
  split_and!; [by vm_compute | lia | exact Hcs |].
  apply (pages_cover_collection page_requests 1 sample_world);
    [by vm_compute | lia | exact Hcs].
Defined.

Lemma create_then_delete_witness :
  body create_request = Json (sample_json "water plants") /\
  counter_ahead sample_world /\
  strconv.Atoi (Param get_request "id") = Some (nextID sample_world) /\
  (let w1 := (CreateTodo ticking create_request sample_world).2 in
   (DeleteTodo get_request w1).1 =
     JSON StatusOK (JMessage "Todo deleted successfully") /\
   todos (DeleteTodo get_request w1).2 = todos sample_world /\
   nextID (DeleteTodo get_request w1).2 =
     GoInt.add (nextID sample_world) 1).
Proof.
  pose proof sample_world_ok as (_ & Hahead & _).
  split_and!; [done | exact Hahead | by vm_compute |].
  apply (create_then_delete ticking create_request get_request
           (sample_json "water plants") sample_world);
    [done | exact Hahead | by vm_compute].
Defined.
